(** * Yorkie document facade: a shallow embedding

    The development follows the Go sources
    - [pkg/document/document.go] in its current form (events, presences,
      fallible clone),
    - the earlier [pkg/document/document.go] (single clone, no presences),
    - [server/backend/config.go].

    Go mutates the receiver in place; here every method is a function from
    the receiver's state to a [step]: the state it leaves behind together
    with the way the call ends (normal completion, [return err], [panic],
    or a channel send that cannot proceed). *)

From stdpp Require Import gmap strings list pretty.
From Stdlib Require Import ZArith Lia Ascii.

Set Warnings "-register-all".

Open Scope Z_scope.

(** ** Go errors *)

(** An [error] value: the sentinel of the document package, a plain
    [errors.New] message, or an error wrapped by [fmt.Errorf] with [%w]. *)
Inductive Error : Type :=
| ErrDocumentRemoved
| ErrorString (msg : string)
| ErrorWrap (msg : string) (cause : Error).

Definition Error_Error (e : Error) : string :=
  match e with
  | ErrDocumentRemoved => "document is removed"
  | ErrorString msg => msg
  | ErrorWrap msg _ => msg
  end.

(** A Go [(T, error)] pair of which exactly one side is meaningful. *)
Inductive result (A : Type) : Type :=
| Ok (a : A)
| Fail (e : Error).
Arguments Ok {A} a.
Arguments Fail {A} e.

Definition is_Ok {A} (r : result A) : bool :=
  match r with Ok _ => true | Fail _ => false end.

(** A Go call that may panic instead of returning its value. *)
Inductive may_panic (A : Type) : Type :=
| Value (a : A)
| Panicked (reason : string).
Arguments Value {A} a.
Arguments Panicked {A} reason.

(** ** Go values of type [interface{}] and the fragment of [fmt] used *)

Module GoFmt.

(** The dynamic values that reach [messageFromMsgAndArgs]: the nil
    interface, strings, ints, bools and [[]interface{}] slices. *)
Inductive iface : Type :=
| INil
| IString (s : string)
| IInt (z : Z)
| IBool (b : bool)
| ISlice (l : list iface).

Definition typeName (v : iface) : string :=
  match v with
  | INil => "<nil>"
  | IString _ => "string"
  | IInt _ => "int"
  | IBool _ => "bool"
  | ISlice _ => "[]interface {}"
  end.

(** The verbs of the fragment. [%+v] differs from [%v] only on structs,
    which are not among the values above. *)
Inductive verb : Type := VerbV | VerbS | VerbD.

Definition verbChar (vb : verb) : string :=
  match vb with VerbV => "v" | VerbS => "s" | VerbD => "d" end.

Definition boolText (b : bool) : string := if b then "true" else "false".

Definition decimal (plus : bool) (z : Z) : string :=
  if plus && (0 <=? z) then "+" +:+ pretty z else pretty z.

(** [%!verb(type=value)], what [fmt] prints for an operand the verb does
    not accept. *)
Definition badVerb (c : string) (ty : string) (val : string) : string :=
  "%!" +:+ c +:+ "(" +:+ ty +:+ "=" +:+ val +:+ ")".

(** [printValue]: one operand under one verb. Slices are printed element
    by element between brackets, separated by spaces. *)
Fixpoint printValue (vb : verb) (plus : bool) (v : iface) : string :=
  match v with
  | INil =>
      match vb with
      | VerbV => "<nil>"
      | _ => "%!" +:+ verbChar vb +:+ "(<nil>)"
      end
  | IString s =>
      match vb with
      | VerbD => badVerb "d" "string" s
      | _ => s
      end
  | IInt z =>
      match vb with
      | VerbS => badVerb "s" "int" (pretty z)
      | VerbD => decimal plus z
      | VerbV => pretty z
      end
  | IBool b =>
      match vb with
      | VerbV => boolText b
      | _ => badVerb (verbChar vb) "bool" (boolText b)
      end
  | ISlice l =>
      "[" +:+
      (fix elems (l : list iface) : string :=
         match l with
         | [] => ""
         | [x] => printValue vb plus x
         | x :: rest => printValue vb plus x +:+ " " +:+ elems rest
         end) l
      +:+ "]"
  end.

Definition extraArg (v : iface) : string :=
  match v with
  | INil => "<nil>"
  | _ => typeName v +:+ "=" +:+ printValue VerbV false v
  end.

Fixpoint joinComma (l : list string) : string :=
  match l with
  | [] => ""
  | [x] => x
  | x :: rest => x +:+ ", " +:+ joinComma rest
  end.

Definition extraArgs (args : list iface) : string :=
  match args with
  | [] => ""
  | _ => "%!(EXTRA " +:+ joinComma (map extraArg args) +:+ ")"
  end.

Definition verbOf (c : Ascii.ascii) : option verb :=
  if Ascii.eqb c "v"%char then Some VerbV
  else if Ascii.eqb c "s"%char then Some VerbS
  else if Ascii.eqb c "d"%char then Some VerbD
  else None.

(** One directive: the text it prints and the operands left. Verbs other
    than [v], [s], [d] and the literal percent lie outside the fragment;
    they are rendered in the bad-verb form, which is what [fmt] prints for
    a verb it does not know. *)
Definition directive (plus : bool) (vc : Ascii.ascii) (args : list iface)
  : string * list iface :=
  if Ascii.eqb vc "%"%char then ("%", args)
  else
    match args with
    | [] => ("%!" +:+ String vc "(MISSING)", [])
    | a :: args' =>
        (match verbOf vc with
         | Some vb => printValue vb plus a
         | None =>
             match a with
             | INil => "%!" +:+ String vc "(<nil>)"
             | _ => badVerb (String vc "") (typeName a) (printValue VerbV false a)
             end
         end, args')
    end.

(** [doPrintf] scans the format. After a percent sign an optional [+]
    flag is read, then the verb; operands left over at the end are
    reported as [EXTRA]. *)
Fixpoint doPrintf (format : string) (args : list iface) : string :=
  match format with
  | EmptyString => extraArgs args
  | String c rest =>
      if negb (Ascii.eqb c "%"%char) then String c (doPrintf rest args)
      else
        match rest with
        | EmptyString => "%!(NOVERB)" +:+ extraArgs args
        | String f rest1 =>
            if Ascii.eqb f "+"%char then
              match rest1 with
              | EmptyString => "%!(NOVERB)" +:+ extraArgs args
              | String vc rest2 =>
                  let out := directive true vc args in
                  out.1 +:+ doPrintf rest2 out.2
              end
            else
              let out := directive false f args in
              out.1 +:+ doPrintf rest1 out.2
        end
  end.

(** [fmt.Sprintf]. *)
Definition Sprintf (format : string) (args : list iface) : string :=
  doPrintf format args.

End GoFmt.
Import GoFmt.

(** ** The change message: [messageFromMsgAndArgs] *)

(** The function has the same text in both versions of document.go. Its
    parameter is variadic, so [msgAndArgs] is the slice the callee sees.
    The type assertion [msgAndArgs[0].(string)] of the last branch panics
    on a format that is not a string. *)
Definition messageFromMsgAndArgs (msgAndArgs : list iface) : may_panic string :=
  match msgAndArgs with
  | [] => Value ""
  | [msg] =>
      match msg with
      | IString msgAsStr => Value msgAsStr
      | _ => Value (Sprintf "%+v" [msg])
      end
  | first :: rest =>
      match first with
      | IString format => Value (Sprintf format rest)
      | _ => Panicked "interface conversion: interface {} is not string"
      end
  end.

(** The current [Update] spreads its variadic parameter:
    [messageFromMsgAndArgs(msgAndArgs...)]. *)
Definition Update_message (msgAndArgs : list iface) : may_panic string :=
  messageFromMsgAndArgs msgAndArgs.

Module Legacy.

(** The earlier [Update] writes [messageFromMsgAndArgs(msgAndArgs)], with
    no spread: the callee receives a slice of length one whose only element
    is the caller's whole [[]interface{}] slice. *)
Definition Update_message (msgAndArgs : list iface) : may_panic string :=
  messageFromMsgAndArgs [ISlice msgAndArgs].

End Legacy.

(** ** Backend configuration: [server/backend/config.go] *)

Module Backend.

Record Config : Type := {
  AdminUser : string;
  AdminPassword : string;
  SecretKey : string;
  AdminTokenDuration : string;
  UseDefaultProject : bool;
  SnapshotThreshold : Z;
  SnapshotInterval : Z;
  AuthWebhookMaxRetries : Z;
  AuthWebhookMaxWaitInterval : string;
  AuthWebhookCacheSize : Z;
  AuthWebhookCacheAuthTTL : string;
  AuthWebhookCacheUnauthTTL : string
}.

Definition with_AdminTokenDuration (s : string) (c : Config) : Config :=
  {| AdminUser := AdminUser c; AdminPassword := AdminPassword c;
     SecretKey := SecretKey c; AdminTokenDuration := s;
     UseDefaultProject := UseDefaultProject c;
     SnapshotThreshold := SnapshotThreshold c;
     SnapshotInterval := SnapshotInterval c;
     AuthWebhookMaxRetries := AuthWebhookMaxRetries c;
     AuthWebhookMaxWaitInterval := AuthWebhookMaxWaitInterval c;
     AuthWebhookCacheSize := AuthWebhookCacheSize c;
     AuthWebhookCacheAuthTTL := AuthWebhookCacheAuthTTL c;
     AuthWebhookCacheUnauthTTL := AuthWebhookCacheUnauthTTL c |}.

(** The double quote character, for the messages of [Validate]. *)
Definition dq : string := String (Ascii.ascii_of_nat 34) EmptyString.

(** [fmt.Errorf] with the format
    [invalid argument "%s" for "<flag>" flag: %w]. *)
Definition invalidArgument (value flag : string) (cause : Error) : Error :=
  ErrorWrap
    ("invalid argument " +:+ dq +:+ value +:+ dq +:+ " for " +:+ dq +:+ flag
       +:+ dq +:+ " flag: " +:+ Error_Error cause)
    cause.

Section WithParseDuration.

(** [time.ParseDuration] of the Go standard library: nanoseconds or an
    error. *)
Variable ParseDuration : string -> result Z.

(** [Validate]: [None] is the nil error. *)
Definition Validate (c : Config) : option Error :=
  match ParseDuration (AuthWebhookMaxWaitInterval c) with
  | Fail err =>
      Some (invalidArgument (AuthWebhookMaxWaitInterval c)
              "--auth-webhook-max-wait-interval" err)
  | Ok _ =>
      match ParseDuration (AuthWebhookCacheAuthTTL c) with
      | Fail err =>
          Some (invalidArgument (AuthWebhookCacheAuthTTL c)
                  "--auth-webhook-cache-auth-ttl" err)
      | Ok _ =>
          match ParseDuration (AuthWebhookCacheUnauthTTL c) with
          | Fail err =>
              Some (invalidArgument (AuthWebhookCacheUnauthTTL c)
                      "--auth-webhook-cache-unauth-ttl" err)
          | Ok _ => None
          end
      end
  end.

(** The four [Parse...] accessors panic with the parse error. *)
Definition parseOrPanic (s : string) : may_panic Z :=
  match ParseDuration s with
  | Ok result => Value result
  | Fail err => Panicked (Error_Error err)
  end.

Definition ParseAdminTokenDuration (c : Config) : may_panic Z :=
  parseOrPanic (AdminTokenDuration c).

Definition ParseAuthWebhookMaxWaitInterval (c : Config) : may_panic Z :=
  parseOrPanic (AuthWebhookMaxWaitInterval c).

Definition ParseAuthWebhookCacheAuthTTL (c : Config) : may_panic Z :=
  parseOrPanic (AuthWebhookCacheAuthTTL c).

Definition ParseAuthWebhookCacheUnauthTTL (c : Config) : may_panic Z :=
  parseOrPanic (AuthWebhookCacheUnauthTTL c).

End WithParseDuration.

End Backend.

(** ** [time.ParseDuration] *)

(** The Go standard library's parser, used to instantiate the parameter of
    [Backend.Validate]. A duration string is an optional sign followed by
    one or more groups [digits[.digits]unit]; the value is in nanoseconds.
    Go adds the fractional part through a float64 product; here it is the
    exact quotient, which changes no verdict of acceptance below 2^63. *)
Module GoTime.

Definition isDigit (c : Ascii.ascii) : bool :=
  let n := Z.of_nat (Ascii.nat_of_ascii c) in (48 <=? n) && (n <=? 57).

Definition digitVal (c : Ascii.ascii) : Z := Z.of_nat (Ascii.nat_of_ascii c) - 48.

Definition quote (s : string) : string := Backend.dq +:+ s +:+ Backend.dq.

Definition invalid (orig : string) : Error :=
  ErrorString ("time: invalid duration " +:+ quote orig).

(** [leadingInt]: the leading digits as a number and the rest, or [None]
    on overflow past 2^63. *)
Fixpoint leadingInt (x : Z) (s : string) : option (Z * string) :=
  match s with
  | EmptyString => Some (x, s)
  | String c rest =>
      if negb (isDigit c) then Some (x, s)
      else if x >? 2 ^ 63 / 10 then None
      else
        let x' := x * 10 + digitVal c in
        if x' >? 2 ^ 63 then None else leadingInt x' rest
  end.

(** [leadingFraction]: digits after the period; once the accumulator would
    overflow, further digits are consumed and ignored. *)
Fixpoint leadingFraction (x scale : Z) (overflow : bool) (s : string)
  : Z * Z * string :=
  match s with
  | EmptyString => (x, scale, s)
  | String c rest =>
      if negb (isDigit c) then (x, scale, s)
      else if overflow then leadingFraction x scale true rest
      else if x >? (2 ^ 63 - 1) / 10 then leadingFraction x scale true rest
      else
        let y := x * 10 + digitVal c in
        if y >? 2 ^ 63 then leadingFraction x scale true rest
        else leadingFraction y (scale * 10) false rest
  end.

(** The unit: the characters up to the next period or digit. *)
Fixpoint takeUnit (s : string) : string * string :=
  match s with
  | EmptyString => (EmptyString, s)
  | String c rest =>
      if Ascii.eqb c "."%char || isDigit c then (EmptyString, s)
      else let '(u, r) := takeUnit rest in (String c u, r)
  end.

Definition byte (n : nat) : Ascii.ascii := Ascii.ascii_of_nat n.

Definition unitMap (u : string) : option Z :=
  if String.eqb u "ns" then Some 1
  else if String.eqb u "us" then Some 1000
  else if String.eqb u (String (byte 194) (String (byte 181) "s")) then Some 1000
  else if String.eqb u (String (byte 206) (String (byte 188) "s")) then Some 1000
  else if String.eqb u "ms" then Some 1000000
  else if String.eqb u "s" then Some 1000000000
  else if String.eqb u "m" then Some 60000000000
  else if String.eqb u "h" then Some 3600000000000
  else None.

(** One group [digits[.digits]unit]: its nanoseconds and the rest. *)
Definition group (orig s : string) : result (Z * string) :=
  match s with
  | EmptyString => Fail (invalid orig)
  | String c0 _ =>
      if negb (Ascii.eqb c0 "."%char || isDigit c0) then Fail (invalid orig)
      else
        match leadingInt 0 s with
        | None => Fail (invalid orig)
        | Some (v, s1) =>
            let pre := negb (String.length s =? String.length s1)%nat in
            let '(f, scale, s2, post) :=
              match s1 with
              | String p after =>
                  if Ascii.eqb p "."%char then
                    let '(f, scale, s2) := leadingFraction 0 1 false after in
                    (f, scale, s2, negb (String.length after =? String.length s2)%nat)
                  else (0, 1, s1, false)
              | EmptyString => (0, 1, s1, false)
              end in
            if negb pre && negb post then Fail (invalid orig)
            else
              let '(u, s3) := takeUnit s2 in
              match u with
              | EmptyString =>
                  Fail (ErrorString ("time: missing unit in duration " +:+ quote orig))
              | _ =>
                  match unitMap u with
                  | None =>
                      Fail (ErrorString ("time: unknown unit " +:+ quote u +:+
                                         " in duration " +:+ quote orig))
                  | Some unit =>
                      if v >? 2 ^ 63 / unit then Fail (invalid orig)
                      else
                        let v1 := v * unit in
                        let v2 := if f >? 0 then v1 + f * unit / scale else v1 in
                        if v2 >? 2 ^ 63 then Fail (invalid orig)
                        else Ok (v2, s3)
                  end
              end
        end
  end.

(** The loop [for s != ""]: every group consumes at least its unit, so
    the length of the input bounds the number of rounds. *)
Fixpoint groups (fuel : nat) (orig : string) (d : Z) (s : string) : result Z :=
  match s with
  | EmptyString => Ok d
  | _ =>
      match fuel with
      | O => Fail (invalid orig)
      | S fuel' =>
          match group orig s with
          | Fail e => Fail e
          | Ok (v, rest) =>
              let d' := d + v in
              if d' >? 2 ^ 63 then Fail (invalid orig)
              else groups fuel' orig d' rest
          end
      end
  end.

Definition ParseDuration (orig : string) : result Z :=
  let '(neg, s) :=
    match orig with
    | String c rest =>
        if Ascii.eqb c "-"%char then (true, rest)
        else if Ascii.eqb c "+"%char then (false, rest)
        else (false, orig)
    | EmptyString => (false, orig)
    end in
  if String.eqb s "0" then Ok 0
  else if String.eqb s EmptyString then Fail (invalid orig)
  else
    match groups (String.length s) orig 0 s with
    | Fail e => Fail e
    | Ok d =>
        if neg then Ok (- d)
        else if d >? 2 ^ 63 - 1 then Fail (invalid orig)
        else Ok d
    end.

End GoTime.

(** ** The document package: data *)

(** [innerpresence.Presence] is a [map[string]string]; [innerpresence.Map]
    maps the string form of an actor ID to the presence of that actor. *)
Abbreviation Presence := (gmap string string).
Abbreviation PresenceMap := (gmap string (gmap string string)).

Definition NewPresence : Presence := ∅.

(** [Map.LoadOrStore]: the stored value when the key is present, else the
    given value, which is stored. *)
Definition LoadOrStore (m : PresenceMap) (key : string) (value : Presence)
  : Presence * PresenceMap :=
  match m !! key with
  | Some actual => (actual, m)
  | None => (value, <[key := value]> m)
  end.

Inductive DocEventType : Type := WatchedEvent | PresenceChangedEvent.

Record DocEvent : Type := {
  event_Type : DocEventType;
  event_Presences : gmap string Presence
}.

Inductive StatusType : Type := StatusDetached | StatusAttached | StatusRemoved.

Definition StatusType_eqb (a b : StatusType) : bool :=
  match a, b with
  | StatusDetached, StatusDetached
  | StatusAttached, StatusAttached
  | StatusRemoved, StatusRemoved => true
  | _, _ => false
  end.

Module Checkpoint.

Record t : Type := { ServerSeq : Z; ClientSeq : Z }.

(** Modelled from the spec: [change.Checkpoint.Forward] is declared outside
    the sources at hand; the data model says that [Forward(other)] returns
    [(max(serverSeq), max(clientSeq))]. *)
Definition Forward (cp other : t) : t :=
  {| ServerSeq := Z.max (ServerSeq cp) (ServerSeq other);
     ClientSeq := Z.max (ClientSeq cp) (ClientSeq other) |}.

Definition with_ServerSeq (serverSeq : Z) (cp : t) : t :=
  {| ServerSeq := serverSeq; ClientSeq := ClientSeq cp |}.

End Checkpoint.

Module ChangeID.

Record t : Type := {
  clientSeq : Z;     (* uint32 *)
  serverSeq : Z;
  lamport : Z;       (* uint64 *)
  actorID : string   (* the string form of the 12-byte actor ID *)
}.

(** Modelled from the spec: [change.ID.Next] is declared outside the
    sources at hand; it increments clientSeq and lamport, each in its
    unsigned width. *)
Definition Next (id : t) : t :=
  {| clientSeq := (clientSeq id + 1) mod 2 ^ 32;
     serverSeq := serverSeq id;
     lamport := (lamport id + 1) mod 2 ^ 64;
     actorID := actorID id |}.

(** Modelled from the spec: [change.ID.SyncLamport] advances lamport to
    [max(local, remote) + 1]. *)
Definition SyncLamport (id : t) (remote : Z) : t :=
  {| clientSeq := clientSeq id;
     serverSeq := serverSeq id;
     lamport := (Z.max (lamport id) remote + 1) mod 2 ^ 64;
     actorID := actorID id |}.

Definition with_lamport (l : Z) (id : t) : t :=
  {| clientSeq := clientSeq id; serverSeq := serverSeq id;
     lamport := l; actorID := actorID id |}.

End ChangeID.

(** The element library the facade is written against: [crdt.Root], the
    operations of a change, [time.Ticket] and the snapshot decoder. Go
    mutates a root in place, so each method returns the root it leaves
    behind next to its Go result. *)
Class ElementLibrary : Type := {
  Root : Type;
  Operation : Type;
  Ticket : Type;
  (** [root.DeepCopy()] *)
  Root_DeepCopy : Root -> result Root;
  (** [root.GarbageCollect(ticket)]: the number of purged nodes *)
  Root_GarbageCollect : Root -> Ticket -> Root * result Z;
  (** [op.Execute(root)] *)
  Operation_Execute : Operation -> Root -> Root * option Error;
  (** the decoder of snapshot bytes into a root and presences *)
  BytesToSnapshot : list Byte.byte -> result (Root * PresenceMap);
  (** the highest lamport stamped on a node of the root *)
  Root_HighWaterLamport : Root -> Z
}.

Section Document.

Context `{Lib : ElementLibrary}.

(** A change: ordered operations, an optional presence delta (a full
    replacement of the presence of the change's actor), its ID and
    message. *)
Record Change : Type := {
  change_ID : ChangeID.t;
  change_Message : string;
  change_Operations : list Operation;
  change_PresenceChange : option Presence
}.

Definition Change_ClientSeq (c : Change) : Z := ChangeID.clientSeq (change_ID c).

Fixpoint executeOperations (ops : list Operation) (root : Root)
  : Root * option Error :=
  match ops with
  | [] => (root, None)
  | op :: rest =>
      match Operation_Execute op root with
      | (root', Some err) => (root', Some err)
      | (root', None) => executeOperations rest root'
      end
  end.

(** Modelled from the spec: [change.Change.Execute] is declared outside the
    sources at hand. Each operation is executed in order on the root it is
    given; the first error ends the call; after all operations the presence
    delta, when there is one, is installed under the change's actor. *)
Definition Change_Execute (c : Change) (root : Root) (presences : PresenceMap)
  : Root * PresenceMap * option Error :=
  match executeOperations (change_Operations c) root with
  | (root', Some err) => (root', presences, Some err)
  | (root', None) =>
      (root',
       match change_PresenceChange c with
       | Some p => <[ChangeID.actorID (change_ID c) := p]> presences
       | None => presences
       end,
       None)
  end.

(** The staging buffer of one update. The Go context also holds a pointer
    to the clone root; that root is the one threaded through the updater
    below. *)
Record Context : Type := {
  ctx_id : ChangeID.t;
  ctx_message : string;
  ctx_operations : list Operation;
  ctx_presenceChange : option Presence
}.

Definition NewContext (id : ChangeID.t) (message : string) : Context :=
  {| ctx_id := id; ctx_message := message;
     ctx_operations := []; ctx_presenceChange := None |}.

(** Modelled from the spec: the context recorded a change when its
    operations are non-empty or the presence changed. *)
Definition Context_HasChange (ctx : Context) : bool :=
  negb (Nat.eqb (length (ctx_operations ctx)) 0)
  || match ctx_presenceChange ctx with Some _ => true | None => false end.

Definition Context_ToChange (ctx : Context) : Change :=
  {| change_ID := ctx_id ctx; change_Message := ctx_message ctx;
     change_Operations := ctx_operations ctx;
     change_PresenceChange := ctx_presenceChange ctx |}.

Definition Context_ID (ctx : Context) : ChangeID.t := ctx_id ctx.

(** The envelope received from the server. *)
Record Pack : Type := {
  pack_DocumentKey : string;
  pack_Checkpoint : Checkpoint.t;
  pack_Changes : list Change;
  pack_Snapshot : list Byte.byte;
  pack_MinSyncedTicket : Ticket;
  pack_IsRemoved : bool
}.

(** The authoritative replica. *)
Record InternalDocument : Type := {
  key : string;
  status : StatusType;
  root : Root;
  presences : PresenceMap;
  checkpoint : Checkpoint.t;
  changeID : ChangeID.t;
  localChanges : list Change
}.

Definition set_status (v : StatusType) (i : InternalDocument) :=
  {| key := key i; status := v; root := root i; presences := presences i;
     checkpoint := checkpoint i; changeID := changeID i;
     localChanges := localChanges i |}.

Definition set_root (v : Root) (i : InternalDocument) :=
  {| key := key i; status := status i; root := v; presences := presences i;
     checkpoint := checkpoint i; changeID := changeID i;
     localChanges := localChanges i |}.

Definition set_presences (v : PresenceMap) (i : InternalDocument) :=
  {| key := key i; status := status i; root := root i; presences := v;
     checkpoint := checkpoint i; changeID := changeID i;
     localChanges := localChanges i |}.

Definition set_checkpoint (v : Checkpoint.t) (i : InternalDocument) :=
  {| key := key i; status := status i; root := root i; presences := presences i;
     checkpoint := v; changeID := changeID i; localChanges := localChanges i |}.

Definition set_changeID (v : ChangeID.t) (i : InternalDocument) :=
  {| key := key i; status := status i; root := root i; presences := presences i;
     checkpoint := checkpoint i; changeID := v; localChanges := localChanges i |}.

Definition set_localChanges (v : list Change) (i : InternalDocument) :=
  {| key := key i; status := status i; root := root i; presences := presences i;
     checkpoint := checkpoint i; changeID := changeID i; localChanges := v |}.

(** The facade. A nil clone pointer is [None]; [events] is the buffer of
    the channel made with capacity 1. *)
Record Document : Type := {
  doc : InternalDocument;
  cloneRoot : option Root;
  clonePresences : option PresenceMap;
  events : list DocEvent
}.

Definition set_doc (v : InternalDocument) (d : Document) :=
  {| doc := v; cloneRoot := cloneRoot d;
     clonePresences := clonePresences d; events := events d |}.

Definition set_cloneRoot (v : option Root) (d : Document) :=
  {| doc := doc d; cloneRoot := v;
     clonePresences := clonePresences d; events := events d |}.

Definition set_clonePresences (v : option PresenceMap) (d : Document) :=
  {| doc := doc d; cloneRoot := cloneRoot d;
     clonePresences := v; events := events d |}.

Definition set_events (v : list DocEvent) (d : Document) :=
  {| doc := doc d; cloneRoot := cloneRoot d;
     clonePresences := clonePresences d; events := v |}.

(** ** Methods of [InternalDocument] *)

(** These live in internal_document.go, outside the sources at hand. Each
    returns the replica it leaves behind and its Go result. *)

Definition InternalDocument_HasLocalChanges (i : InternalDocument) : bool :=
  negb (Nat.eqb (length (localChanges i)) 0).

Definition InternalDocument_ActorID (i : InternalDocument) : string :=
  ChangeID.actorID (changeID i).

Definition InternalDocument_SetStatus (v : StatusType) (i : InternalDocument)
  : InternalDocument := set_status v i.

(** Modelled from the spec: [InternalDocument.applySnapshot]. Decode the
    bytes into a fresh root and presences, replace the authoritative pair,
    set the lamport of the change ID to the high-water lamport of the
    snapshot, set [checkpoint.serverSeq]; [localChanges] is not cleared. *)
Definition InternalDocument_applySnapshot (snapshot : list Byte.byte)
    (serverSeq : Z) (i : InternalDocument) : InternalDocument * option Error :=
  match BytesToSnapshot snapshot with
  | Fail err => (i, Some err)
  | Ok (r, p) =>
      (set_checkpoint (Checkpoint.with_ServerSeq serverSeq (checkpoint i))
         (set_changeID (ChangeID.with_lamport (Root_HighWaterLamport r) (changeID i))
            (set_presences p (set_root r i))),
       None)
  end.

Definition presenceEvent (c : Change) : list DocEvent :=
  match change_PresenceChange c with
  | Some p =>
      [{| event_Type := PresenceChangedEvent;
          event_Presences := {[ChangeID.actorID (change_ID c) := p]} |}]
  | None => []
  end.

(** Modelled from the spec: [InternalDocument.ApplyChanges]. The changes
    are executed in pack order against the authoritative root and
    presences; the lamport is synchronised on each remote change; the
    presence-changed events are collected. The first failing change ends
    the call with what was executed so far in place. *)
Fixpoint InternalDocument_ApplyChanges (changes : list Change)
    (i : InternalDocument) : InternalDocument * result (list DocEvent) :=
  match changes with
  | [] => (i, Ok [])
  | c :: rest =>
      match Change_Execute c (root i) (presences i) with
      | (r, p, Some err) => (set_presences p (set_root r i), Fail err)
      | (r, p, None) =>
          let i' :=
            set_changeID
              (ChangeID.SyncLamport (changeID i) (ChangeID.lamport (change_ID c)))
              (set_presences p (set_root r i)) in
          match InternalDocument_ApplyChanges rest i' with
          | (i'', Ok evs) => (i'', Ok (presenceEvent c ++ evs))
          | (i'', Fail err) => (i'', Fail err)
          end
      end
  end.

(** Modelled from the spec: [InternalDocument.GarbageCollect] delegates to
    the authoritative root. *)
Definition InternalDocument_GarbageCollect (ticket : Ticket)
    (i : InternalDocument) : InternalDocument * result Z :=
  match Root_GarbageCollect (root i) ticket with
  | (r, res) => (set_root r i, res)
  end.

(** ** Methods of [Document] *)

(** How a method of the facade ends, and the facade it leaves behind. *)
Inductive step (A : Type) : Type :=
| Next (a : A) (d : Document)        (* runs on, or returns, with [a] *)
| Raise (err : Error) (d : Document) (* [return err] *)
| Panic (err : Error) (d : Document) (* [panic(err)] *)
| Blocked (d : Document).            (* a send on the full channel *)
Arguments Next {A} a d.
Arguments Raise {A} err d.
Arguments Panic {A} err d.
Arguments Blocked {A} d.

Definition M (A : Type) : Type := Document -> step A.

Definition ret {A} (a : A) : M A := fun d => Next a d.

Definition bind {A B} (m : M A) (k : A -> M B) : M B :=
  fun d =>
    match m d with
    | Next a d' => k a d'
    | Raise err d' => Raise err d'
    | Panic err d' => Panic err d'
    | Blocked d' => Blocked d'
    end.

Notation "'do' x <- m ; k" := (bind m (fun x => k))
  (at level 10, x binder, m at level 100, k at level 200).
Notation "m ;; k" := (bind m (fun _ => k))
  (at level 100, k at level 200, right associativity).

Definition modify (f : Document -> Document) : M unit := fun d => Next tt (f d).

(** A method of the authoritative replica that returns an [error]. *)
Definition onDoc (f : InternalDocument -> InternalDocument * option Error)
  : M unit :=
  fun d =>
    match f (doc d) with
    | (i, Some err) => Raise err (set_doc i d)
    | (i, None) => Next tt (set_doc i d)
    end.

(** The final state of a call, however it ended. *)
Definition final {A} (s : step A) : Document :=
  match s with
  | Next _ d | Raise _ d | Panic _ d | Blocked d => d
  end.

Definition nilDereference : Error :=
  ErrorString "invalid memory address or nil pointer dereference".

Definition ensureClone : M unit :=
  fun d =>
    let afterRoot : step unit :=
      match cloneRoot d with
      | None =>
          match Root_DeepCopy (root (doc d)) with
          | Fail err => Raise err d
          | Ok copiedDoc => Next tt (set_cloneRoot (Some copiedDoc) d)
          end
      | Some _ => Next tt d
      end in
    match afterRoot with
    | Next _ d1 =>
        match clonePresences d1 with
        | None => Next tt (set_clonePresences (Some (presences (doc d1))) d1)
        | Some _ => Next tt d1
        end
    | other => other
    end.

(** The updater is user code. It sees the context and, through the two
    proxies, the clone root and the clone presences; it may change all
    three and returns an [error]. *)
Definition Updater : Type :=
  Context -> Root -> PresenceMap -> Context * Root * PresenceMap * option Error.

Definition ActorID (d : Document) : string := InternalDocument_ActorID (doc d).

(** The part of [Update] that runs before the updater is called: the
    status gate, the clone, the context, and the two proxies. It yields
    what the updater is given: the context, the clone root and the clone
    presences after [LoadOrStore] has made room for the actor. *)
Definition prepareUpdate (msgAndArgs : list iface)
  : M (Context * Root * PresenceMap) :=
  fun d =>
    if StatusType_eqb (status (doc d)) StatusRemoved then Raise ErrDocumentRemoved d
    else
      (ensureClone ;;
       fun d =>
         match Update_message msgAndArgs with
         | Panicked reason => Panic (ErrorString reason) d
         | Value message =>
             let ctx := NewContext (ChangeID.Next (changeID (doc d))) message in
             match cloneRoot d, clonePresences d with
             | Some cr, Some cp =>
                 let cp1 := (LoadOrStore cp (ActorID d) NewPresence).2 in
                 Next (ctx, cr, cp1) (set_clonePresences (Some cp1) d)
             | _, _ => Panic nilDereference d
             end
         end) d.

(** [Update] executes the given updater to update this document. *)
Definition Update (updater : Updater) (msgAndArgs : list iface) : M unit :=
  do staged <- prepareUpdate msgAndArgs;
  fun d =>
    let '(ctx, cr, cp) := staged in
    match updater ctx cr cp with
    | (_, _, _, Some err) =>
        (* drop cloneRoot because it is contaminated. *)
        Raise err (set_clonePresences None (set_cloneRoot None d))
    | (ctx', cr', cp', None) =>
        let d1 := set_clonePresences (Some cp') (set_cloneRoot (Some cr') d) in
        if Context_HasChange ctx' then
          let c := Context_ToChange ctx' in
          match Change_Execute c (root (doc d1)) (presences (doc d1)) with
          | (r, p, Some err) =>
              Raise err (set_doc (set_presences p (set_root r (doc d1))) d1)
          | (r, p, None) =>
              Next tt
                (set_doc
                   (set_changeID (Context_ID ctx')
                      (set_localChanges (localChanges (doc d1) ++ [c])
                         (set_presences p (set_root r (doc d1)))))
                   d1)
          end
        else Next tt d1
    end.

(** [GarbageCollect] purges elements that were removed before the given
    time. *)
Definition GarbageCollect (ticket : Ticket) : M Z :=
  fun d =>
    let afterClone : step unit :=
      match cloneRoot d with
      | Some cr =>
          match Root_GarbageCollect cr ticket with
          | (cr', Fail err) => Panic err (set_cloneRoot (Some cr') d)
          | (cr', Ok _) => Next tt (set_cloneRoot (Some cr') d)
          end
      | None => Next tt d
      end in
    match afterClone with
    | Next _ d1 =>
        match InternalDocument_GarbageCollect ticket (doc d1) with
        | (i, Fail err) => Panic err (set_doc i d1)
        | (i, Ok n) => Next n (set_doc i d1)
        end
    | Raise err d1 => Raise err d1
    | Panic err d1 => Panic err d1
    | Blocked d1 => Blocked d1
    end.

Definition HasLocalChanges (d : Document) : bool :=
  InternalDocument_HasLocalChanges (doc d).

Definition SetStatus (v : StatusType) : M unit :=
  modify (fun d => set_doc (InternalDocument_SetStatus v (doc d)) d).

(** The loop over [pack.Changes] that executes each change on the clone. *)
Fixpoint executeOnClone (changes : list Change) : M unit :=
  match changes with
  | [] => ret tt
  | c :: rest =>
      fun d =>
        match cloneRoot d, clonePresences d with
        | Some cr, Some cp =>
            match Change_Execute c cr cp with
            | (cr', cp', Some err) =>
                Raise err (set_clonePresences (Some cp') (set_cloneRoot (Some cr') d))
            | (cr', cp', None) =>
                executeOnClone rest
                  (set_clonePresences (Some cp') (set_cloneRoot (Some cr') d))
            end
        | _, _ => Panic nilDereference d
        end
  end.

(** [d.events <- e] on the channel of capacity 1: the send completes when
    the buffer has room, and otherwise waits for a receiver. *)
Definition send (e : DocEvent) : M unit :=
  fun d =>
    if Nat.ltb (length (events d)) 1 then Next tt (set_events (events d ++ [e]) d)
    else Blocked d.

Fixpoint sendAll (evs : list DocEvent) : M unit :=
  match evs with
  | [] => ret tt
  | e :: rest => send e ;; sendAll rest
  end.

(** The loop that removes the local changes applied to the server: the
    head is dropped until its client sequence exceeds the checkpoint's. *)
Fixpoint removeApplied (clientSeq : Z) (l : list Change) : list Change :=
  match l with
  | [] => []
  | c :: rest =>
      if Change_ClientSeq c >? clientSeq then l
      else removeApplied clientSeq rest
  end.

(** Step 01 of [ApplyChangePack]: apply remote changes to both the
    cloneRoot and the document. *)
Definition applyRemoteChanges (pack : Pack) : M unit :=
  if Nat.ltb 0 (length (pack_Snapshot pack)) then
    modify (fun d => set_clonePresences None (set_cloneRoot None d)) ;;
    onDoc (InternalDocument_applySnapshot (pack_Snapshot pack)
             (Checkpoint.ServerSeq (pack_Checkpoint pack)))
  else
    ensureClone ;;
    executeOnClone (pack_Changes pack) ;;
    do evs <- (fun d =>
                 match InternalDocument_ApplyChanges (pack_Changes pack) (doc d) with
                 | (i, Fail err) => Raise err (set_doc i d)
                 | (i, Ok evs) => Next evs (set_doc i d)
                 end);
    sendAll evs.

(** Steps 02 to 05 of [ApplyChangePack]. *)
Definition afterRemoteChanges (pack : Pack) : M unit :=
  (* 02. Remove local changes applied to server. *)
  modify (fun d =>
            set_doc
              (set_localChanges
                 (removeApplied (Checkpoint.ClientSeq (pack_Checkpoint pack))
                    (localChanges (doc d)))
                 (doc d)) d) ;;
  (* 03. Update the checkpoint. *)
  modify (fun d =>
            set_doc
              (set_checkpoint
                 (Checkpoint.Forward (checkpoint (doc d)) (pack_Checkpoint pack))
                 (doc d)) d) ;;
  (* 04. Do Garbage collection. *)
  GarbageCollect (pack_MinSyncedTicket pack) ;;
  (* 05. Update the status. *)
  (if pack_IsRemoved pack then SetStatus StatusRemoved else ret tt).

(** [ApplyChangePack] applies the given change pack into this document. *)
Definition ApplyChangePack (pack : Pack) : M unit :=
  applyRemoteChanges pack ;; afterRemoteChanges pack.

Definition set_pack_Changes (changes : list Change) (pack : Pack) : Pack :=
  {| pack_DocumentKey := pack_DocumentKey pack;
     pack_Checkpoint := pack_Checkpoint pack;
     pack_Changes := changes;
     pack_Snapshot := pack_Snapshot pack;
     pack_MinSyncedTicket := pack_MinSyncedTicket pack;
     pack_IsRemoved := pack_IsRemoved pack |}.

(** The client sequences of a list of changes never go down. *)
Fixpoint ascending (l : list Z) : bool :=
  match l with
  | a :: (b :: _) as rest => (a <=? b) && ascending rest
  | _ => true
  end.

(** The pending changes are in ascending order of client sequence and none
    is ahead of the change ID of the replica. *)
Definition pendingInOrder (d : Document) : bool :=
  ascending (map Change_ClientSeq (localChanges (doc d))
               ++ [ChangeID.clientSeq (changeID (doc d))]).

End Document.

Arguments Next {Lib A} a d.
Arguments Raise {Lib A} err d.
Arguments Panic {Lib A} err d.
Arguments Blocked {Lib A} d.

(** ** A small element library *)

(** A flat object whose fields hold counters and strings, with tombstones.
    It instantiates [ElementLibrary] for the concrete runs of the facade
    further down; tickets are reduced to their lamport. *)
Module Flat.

Inductive value : Type := Counter (n : Z) | Text (s : string).

Record node : Type := {
  field : string;
  content : value;
  createdAt : Z;
  removedAt : option Z
}.

Inductive operation : Type :=
| Set_ (k : string) (v : value) (executedAt : Z)
| Increase (k : string) (delta : Z) (executedAt : Z)
| Remove (k : string) (executedAt : Z).

Definition ErrNotApplicableDataType : Error :=
  ErrorString "not applicable datatype".

Fixpoint findField (k : string) (r : list node) : option node :=
  match r with
  | [] => None
  | n :: rest => if String.eqb (field n) k then Some n else findField k rest
  end.

Fixpoint putField (n' : node) (r : list node) : list node :=
  match r with
  | [] => [n']
  | n :: rest =>
      if String.eqb (field n) (field n') then n' :: rest
      else n :: putField n' rest
  end.

(** An operation whose target is absent is dropped; [Increase] on a field
    that holds a string is rejected by the handler; [Set_] is
    last-writer-wins on the ticket. *)
Definition execute (op : operation) (r : list node) : list node * option Error :=
  match op with
  | Set_ k v t =>
      match findField k r with
      | Some n =>
          if createdAt n <? t
          then (putField {| field := k; content := v; createdAt := t;
                           removedAt := None |} r, None)
          else (r, None)
      | None =>
          (putField {| field := k; content := v; createdAt := t;
                      removedAt := None |} r, None)
      end
  | Increase k delta t =>
      match findField k r with
      | Some n =>
          match content n with
          | Counter c =>
              (putField {| field := k; content := Counter (c + delta);
                          createdAt := createdAt n;
                          removedAt := removedAt n |} r, None)
          | Text _ => (r, Some ErrNotApplicableDataType)
          end
      | None => (r, None)
      end
  | Remove k t =>
      match findField k r with
      | Some n =>
          (putField {| field := k; content := content n;
                      createdAt := createdAt n; removedAt := Some t |} r, None)
      | None => (r, None)
      end
  end.

Definition purgeable (ticket : Z) (n : node) : bool :=
  match removedAt n with
  | Some t => t <=? ticket
  | None => false
  end.

Definition garbageCollect (r : list node) (ticket : Z) : list node * result Z :=
  (List.filter (fun n => negb (purgeable ticket n)) r,
   Ok (Z.of_nat (length (List.filter (purgeable ticket) r)))).

Fixpoint highWater (r : list node) : Z :=
  match r with
  | [] => 0
  | n :: rest => Z.max (createdAt n) (highWater rest)
  end.

Definition byteText (b : Byte.byte) : string :=
  String (Ascii.ascii_of_byte b) EmptyString.

(** The wire form of a snapshot: field byte, counter byte, and so on. *)
Fixpoint decode (bytes : list Byte.byte) : result (list node) :=
  match bytes with
  | [] => Ok []
  | [_] => Fail (ErrorString "unexpected end of snapshot")
  | k :: v :: rest =>
      match decode rest with
      | Fail e => Fail e
      | Ok r =>
          Ok ({| field := byteText k;
                 content := Counter (Z.of_N (Byte.to_N v));
                 createdAt := 1; removedAt := None |} :: r)
      end
  end.

#[export] Instance library : ElementLibrary := {|
  Root := list node;
  Operation := operation;
  Ticket := Z;
  Root_DeepCopy := fun r => Ok r;
  Root_GarbageCollect := garbageCollect;
  Operation_Execute := execute;
  BytesToSnapshot := fun bytes =>
    match decode bytes with
    | Ok r => Ok (r, ∅)
    | Fail e => Fail e
    end;
  Root_HighWaterLamport := highWater
|}.

End Flat.

(** ** Concrete replicas, updaters and packs *)

Module Scenario.
Import Flat.

Definition actorA : ChangeID.t :=
  {| ChangeID.clientSeq := 0; ChangeID.serverSeq := 0;
     ChangeID.lamport := 0; ChangeID.actorID := "A" |}.

Definition replica (st : StatusType) (r : list node) : InternalDocument :=
  {| key := "d1"; status := st; root := r; presences := ∅;
     checkpoint := {| Checkpoint.ServerSeq := 0; Checkpoint.ClientSeq := 0 |};
     changeID := actorA; localChanges := [] |}.

Definition facade (i : InternalDocument) : Document :=
  {| doc := i; cloneRoot := None; clonePresences := None; events := [] |}.

(** A fresh attached document, and a removed one. *)
Definition fresh : Document := facade (replica StatusAttached []).
Definition removed : Document := facade (replica StatusRemoved []).

(** What the object proxy does for one mutation: execute the operation on
    the clone and push it onto the context. *)
Definition record (op : operation) : Updater :=
  fun ctx cr cp =>
    match execute op cr with
    | (cr', Some err) => (ctx, cr', cp, Some err)
    | (cr', None) =>
        ({| ctx_id := ctx_id ctx; ctx_message := ctx_message ctx;
            ctx_operations := ctx_operations ctx ++ [op];
            ctx_presenceChange := ctx_presenceChange ctx |}, cr', cp, None)
    end.

(** What the presence proxy does: replace the actor's presence on the
    clone and note the delta in the context. *)
Definition setPresence (p : Presence) : Updater :=
  fun ctx cr cp =>
    ({| ctx_id := ctx_id ctx; ctx_message := ctx_message ctx;
        ctx_operations := ctx_operations ctx;
        ctx_presenceChange := Some p |},
     cr, <[ChangeID.actorID (ctx_id ctx) := p]> cp, None).

(** Two updater bodies in sequence; a body followed by [return err]. *)
Definition andThen (u1 u2 : Updater) : Updater :=
  fun ctx cr cp =>
    match u1 ctx cr cp with
    | (ctx', cr', cp', None) => u2 ctx' cr' cp'
    | failed => failed
    end.

Definition thenFail (u : Updater) (err : Error) : Updater :=
  fun ctx cr cp =>
    match u ctx cr cp with
    | (ctx', cr', cp', None) => (ctx', cr', cp', Some err)
    | failed => failed
    end.

Definition boom : Error := ErrorString "boom".

(** Scenario 1 of the specification: [root["x"] = 1] on a fresh document. *)
Definition insertX : Updater := record (Set_ "x" (Counter 1) 1).
Definition afterInsert : Document := final (Update insertX [] fresh).

(** Scenario 2: [root["y"] = 2; return error("boom")]. *)
Definition insertYThenBoom : Updater :=
  thenFail (record (Set_ "y" (Counter 2) 2)) boom.

(** Three updates in a row leave three pending changes. *)
Definition threePending : Document :=
  final (Update (record (Set_ "c" (Counter 3) 3)) []
    (final (Update (record (Set_ "b" (Counter 2) 2)) []
       (final (Update (record (Set_ "a" (Counter 1) 1)) [] fresh))))).

Definition checkpointAt (serverSeq clientSeq : Z) : Checkpoint.t :=
  {| Checkpoint.ServerSeq := serverSeq; Checkpoint.ClientSeq := clientSeq |}.

Definition remoteChange (ops : list operation) : Change :=
  {| change_ID := {| ChangeID.clientSeq := 1; ChangeID.serverSeq := 0;
                     ChangeID.lamport := 5; ChangeID.actorID := "B" |};
     change_Message := EmptyString;
     change_Operations := ops;
     change_PresenceChange := None |}.

(** A pack that only acknowledges client sequence 2. *)
Definition ackTwo : Pack :=
  {| pack_DocumentKey := "d1"; pack_Checkpoint := checkpointAt 10 2;
     pack_Changes := []; pack_Snapshot := [];
     pack_MinSyncedTicket := 0; pack_IsRemoved := false |}.

(** A pack that carries a snapshot (field [x], counter 7) next to a change
    that no replica could execute. *)
Definition snapshotPack : Pack :=
  {| pack_DocumentKey := "d1"; pack_Checkpoint := checkpointAt 10 2;
     pack_Changes := [remoteChange [Increase "b" 1 9]];
     pack_Snapshot := [Byte.x78; Byte.x07];
     pack_MinSyncedTicket := 0; pack_IsRemoved := false |}.

Definition live (k : string) (v : value) (t : Z) : node :=
  {| field := k; content := v; createdAt := t; removedAt := None |}.

(** A replica with two string fields, and a pack whose single change sets
    [x] to a counter and then increases the string [w]. *)
Definition strings : Document :=
  facade (replica StatusAttached [live "x" (Text "a") 1; live "w" (Text "b") 2]).

Definition badPack : Pack :=
  {| pack_DocumentKey := "d1"; pack_Checkpoint := checkpointAt 10 0;
     pack_Changes := [remoteChange [Set_ "x" (Counter 1) 5; Increase "w" 1 6]];
     pack_Snapshot := []; pack_MinSyncedTicket := 0; pack_IsRemoved := false |}.

(** The facade after [badPack] was rejected, and an updater that adds a
    field and then increases [x], a counter on the clone by now. *)
Definition afterBadPack : Document := final (ApplyChangePack badPack strings).

Definition addThenIncrease : Updater :=
  andThen (record (Set_ "y" (Counter 5) 7)) (record (Increase "x" 1 8)).

(** An updater that only changes the presence of the actor. *)
Definition moveCursor : Updater := setPresence {["cursor" := "1"]}.

(** A facade whose clone holds two tombstones and whose authoritative root
    holds one. *)
Definition tombstones : Document :=
  {| doc := replica StatusAttached
       [ {| field := "a"; content := Counter 1; createdAt := 1; removedAt := Some 3 |};
         {| field := "b"; content := Counter 2; createdAt := 2; removedAt := None |} ];
     cloneRoot := Some
       [ {| field := "a"; content := Counter 1; createdAt := 1; removedAt := Some 3 |};
         {| field := "b"; content := Counter 2; createdAt := 2; removedAt := Some 4 |} ];
     clonePresences := Some ∅;
     events := [] |}.

(** A configuration whose webhook durations parse and whose admin token
    duration is the documented default. *)
Definition defaults : Backend.Config :=
  {| Backend.AdminUser := "admin"; Backend.AdminPassword := "admin";
     Backend.SecretKey := "secret"; Backend.AdminTokenDuration := "7d";
     Backend.UseDefaultProject := true;
     Backend.SnapshotThreshold := 500; Backend.SnapshotInterval := 1000;
     Backend.AuthWebhookMaxRetries := 10;
     Backend.AuthWebhookMaxWaitInterval := "3s";
     Backend.AuthWebhookCacheSize := 5000;
     Backend.AuthWebhookCacheAuthTTL := "10s";
     Backend.AuthWebhookCacheUnauthTTL := "10s" |}.

End Scenario.

(** ** Further methods of [Document] *)

Section Accessors.

Context `{Lib : ElementLibrary}.

(** [Status] returns the status of this document. *)
Definition Status (d : Document) : StatusType := status (doc d).

(** [Root] returns the root object of this document: the proxy made of a
    fresh context and the clone root. A failing [ensureClone] is turned
    into a panic. *)
Definition Document_Root : M (Context * Root) :=
  fun d =>
    match ensureClone d with
    | Next _ d1 =>
        match cloneRoot d1 with
        | Some cr =>
            Next (NewContext (ChangeID.Next (changeID (doc d1))) EmptyString, cr) d1
        | None => Panic nilDereference d1
        end
    | Raise err d1 => Panic err d1
    | Panic err d1 => Panic err d1
    | Blocked d1 => Blocked d1
    end.

End Accessors.

(** ** An element library that checks its roots *)

(** The flat object again, with the two checks that make the fallible
    methods of a root fail: [DeepCopy] rejects a root in which a field
    occurs twice, [GarbageCollect] rejects a root with a tombstone that is
    not later than the creation of its node. *)
Module Checked.
Import Flat.

Fixpoint duplicated (r : list node) : bool :=
  match r with
  | [] => false
  | n :: rest =>
      match findField (field n) rest with
      | Some _ => true
      | None => duplicated rest
      end
  end.

Definition ErrDuplicateField : Error := ErrorString "duplicate field".
Definition ErrRemovedBeforeCreated : Error := ErrorString "removed before created".

Definition deepCopy (r : list node) : result (list node) :=
  if duplicated r then Fail ErrDuplicateField else Ok r.

Definition misplacedTombstone (n : node) : bool :=
  match removedAt n with
  | Some t => t <=? createdAt n
  | None => false
  end.

Definition garbageCollect (r : list node) (ticket : Z) : list node * result Z :=
  if existsb misplacedTombstone r then (r, Fail ErrRemovedBeforeCreated)
  else Flat.garbageCollect r ticket.

Definition library : ElementLibrary := {|
  Root := list node;
  Operation := operation;
  Ticket := Z;
  Root_DeepCopy := deepCopy;
  Root_GarbageCollect := garbageCollect;
  Operation_Execute := execute;
  BytesToSnapshot := fun bytes =>
    match decode bytes with
    | Ok r => Ok (r, ∅)
    | Fail e => Fail e
    end;
  Root_HighWaterLamport := highWater
|}.

Definition replica (st : StatusType) (r : list node) : @InternalDocument library :=
  @Build_InternalDocument library "d1" st r ∅
    {| Checkpoint.ServerSeq := 0; Checkpoint.ClientSeq := 0 |}
    Scenario.actorA [].

(** A facade without clone whose authoritative root holds field [a]
    twice. *)
Definition twice : @Document library :=
  @Build_Document library
    (replica StatusAttached
       [Scenario.live "a" (Counter 1) 1; Scenario.live "a" (Counter 2) 2])
    None None [].

(** A facade whose clone holds a tombstone stamped at the creation time of
    its node. *)
Definition misplaced : @Document library :=
  @Build_Document library
    (replica StatusAttached
       [ {| field := "a"; content := Counter 1; createdAt := 1; removedAt := Some 3 |} ])
    (Some
       [ {| field := "a"; content := Counter 1; createdAt := 1; removedAt := Some 1 |} ])
    (Some ∅) [].

End Checked.

(** ** Further replicas, updaters and packs *)

Module Cases.
Import Flat Scenario.

(** An updater that reads and records nothing. *)
Definition idle : Updater := fun ctx cr cp => (ctx, cr, cp, None).

(** Message arguments whose format is not a string. *)
Definition badArguments : list iface := [IInt 1; IString "x"].

Definition presenceOf (actor : string) (p : Presence) : Change :=
  {| change_ID := {| ChangeID.clientSeq := 1; ChangeID.serverSeq := 0;
                     ChangeID.lamport := 5; ChangeID.actorID := actor |};
     change_Message := EmptyString;
     change_Operations := [];
     change_PresenceChange := Some p |}.

Definition packOf (changes : list Change) (snapshot : list Byte.byte)
    (isRemoved : bool) : Pack :=
  {| pack_DocumentKey := "d1"; pack_Checkpoint := checkpointAt 10 2;
     pack_Changes := changes; pack_Snapshot := snapshot;
     pack_MinSyncedTicket := 0; pack_IsRemoved := isRemoved |}.

(** One remote presence change; two of them; a removal notice; a snapshot
    cut short; a pack whose second change no replica can execute. *)
Definition onePresence : Pack :=
  packOf [presenceOf "B" {["cursor" := "1"]}] [] false.
Definition twoPresences : Pack :=
  packOf [presenceOf "B" {["cursor" := "1"]}; presenceOf "C" {["cursor" := "2"]}]
    [] false.
Definition removal : Pack := packOf [] [] true.

(** An acknowledgement of client sequence 3. *)
Definition ackThree : Pack :=
  {| pack_DocumentKey := "d1"; pack_Checkpoint := checkpointAt 11 3;
     pack_Changes := []; pack_Snapshot := [];
     pack_MinSyncedTicket := 0; pack_IsRemoved := false |}.
Definition truncated : Pack := packOf [] [Byte.x78] false.

(** A facade whose clone holds [w] as a counter while the authoritative
    root holds it as a string, and a pack that increases [w]. *)
Definition split : Document :=
  {| doc := replica StatusAttached [live "w" (Text "b") 2];
     cloneRoot := Some [live "w" (Counter 0) 2];
     clonePresences := Some ∅; events := [] |}.
Definition increaseW : Pack := packOf [remoteChange [Increase "w" 1 6]] [] false.

(** A configuration whose authorized TTL lacks its unit, next to an
    unauthorized TTL that is no duration at all. *)
Definition unitless : Backend.Config :=
  {| Backend.AdminUser := "admin"; Backend.AdminPassword := "admin";
     Backend.SecretKey := "secret"; Backend.AdminTokenDuration := "168h";
     Backend.UseDefaultProject := true;
     Backend.SnapshotThreshold := 500; Backend.SnapshotInterval := 1000;
     Backend.AuthWebhookMaxRetries := 10;
     Backend.AuthWebhookMaxWaitInterval := "3s";
     Backend.AuthWebhookCacheSize := 5000;
     Backend.AuthWebhookCacheAuthTTL := "10";
     Backend.AuthWebhookCacheUnauthTTL := "soon" |}.

End Cases.

(** ** The earlier document.go *)

(** The element library of the earlier version: a root is copied and
    collected without an error result, and a change is executed on a root
    alone. *)
Class LegacyLibrary : Type := {
  LRoot : Type;
  LOperation : Type;
  LTicket : Type;
  (** [root.DeepCopy()] *)
  LRoot_DeepCopy : LRoot -> LRoot;
  (** [root.GarbageCollect(ticket)]: the number of purged nodes *)
  LRoot_GarbageCollect : LRoot -> LTicket -> LRoot * Z;
  (** [op.Execute(root)] *)
  LOperation_Execute : LOperation -> LRoot -> LRoot * option Error;
  (** the decoder of snapshot bytes into a root *)
  LBytesToObject : list Byte.byte -> result LRoot
}.

Module LegacyFacade.

Section Document.

Context `{Lib : LegacyLibrary}.

Record Change : Type := {
  change_ID : ChangeID.t;
  change_Message : string;
  change_Operations : list LOperation
}.

Definition Change_ClientSeq (c : Change) : Z := ChangeID.clientSeq (change_ID c).

Fixpoint executeOperations (ops : list LOperation) (root : LRoot)
  : LRoot * option Error :=
  match ops with
  | [] => (root, None)
  | op :: rest =>
      match LOperation_Execute op root with
      | (root', Some err) => (root', Some err)
      | (root', None) => executeOperations rest root'
      end
  end.

(** Modelled from the spec: [change.Change.Execute], declared outside the
    sources at hand, executes the operations in order and stops at the
    first error. *)
Definition Change_Execute (c : Change) (root : LRoot) : LRoot * option Error :=
  executeOperations (change_Operations c) root.

Record Context : Type := {
  ctx_id : ChangeID.t;
  ctx_message : string;
  ctx_operations : list LOperation
}.

Definition NewContext (id : ChangeID.t) (message : string) : Context :=
  {| ctx_id := id; ctx_message := message; ctx_operations := [] |}.

Definition Context_HasOperations (ctx : Context) : bool :=
  negb (Nat.eqb (length (ctx_operations ctx)) 0).

Definition Context_ToChange (ctx : Context) : Change :=
  {| change_ID := ctx_id ctx; change_Message := ctx_message ctx;
     change_Operations := ctx_operations ctx |}.

Record Pack : Type := {
  pack_Checkpoint : Checkpoint.t;
  pack_Changes : list Change;
  pack_Snapshot : list Byte.byte;
  pack_MinSyncedTicket : LTicket
}.

Record InternalDocument : Type := {
  key : string * string;    (* collection, document *)
  status : StatusType;
  root : LRoot;
  checkpoint : Checkpoint.t;
  changeID : ChangeID.t;
  localChanges : list Change
}.

Definition set_root (v : LRoot) (i : InternalDocument) :=
  {| key := key i; status := status i; root := v; checkpoint := checkpoint i;
     changeID := changeID i; localChanges := localChanges i |}.

Definition set_checkpoint (v : Checkpoint.t) (i : InternalDocument) :=
  {| key := key i; status := status i; root := root i; checkpoint := v;
     changeID := changeID i; localChanges := localChanges i |}.

Definition set_changeID (v : ChangeID.t) (i : InternalDocument) :=
  {| key := key i; status := status i; root := root i;
     checkpoint := checkpoint i; changeID := v; localChanges := localChanges i |}.

Definition set_localChanges (v : list Change) (i : InternalDocument) :=
  {| key := key i; status := status i; root := root i;
     checkpoint := checkpoint i; changeID := changeID i; localChanges := v |}.

(** The facade of the earlier version: one clone field. *)
Record Document : Type := {
  doc : InternalDocument;
  clone : option LRoot
}.

Definition set_doc (v : InternalDocument) (d : Document) :=
  {| doc := v; clone := clone d |}.

Definition set_clone (v : option LRoot) (d : Document) :=
  {| doc := doc d; clone := v |}.

(** The facade together with what [log.Logger.Error] has written. *)
Record World : Type := {
  facade : Document;
  errorLog : list Error
}.

(** Modelled from the spec: [InternalDocument.applySnapshot],
    [applyChanges] and [GarbageCollect] of the earlier version live
    outside the sources at hand; they are the ones above without
    presences and events. *)
Definition InternalDocument_applySnapshot (snapshot : list Byte.byte)
    (serverSeq : Z) (i : InternalDocument) : InternalDocument * option Error :=
  match LBytesToObject snapshot with
  | Fail err => (i, Some err)
  | Ok r =>
      (set_checkpoint (Checkpoint.with_ServerSeq serverSeq (checkpoint i))
         (set_root r i), None)
  end.

Fixpoint InternalDocument_applyChanges (changes : list Change)
    (i : InternalDocument) : InternalDocument * option Error :=
  match changes with
  | [] => (i, None)
  | c :: rest =>
      match Change_Execute c (root i) with
      | (r, Some err) => (set_root r i, Some err)
      | (r, None) =>
          InternalDocument_applyChanges rest
            (set_changeID
               (ChangeID.SyncLamport (changeID i) (ChangeID.lamport (change_ID c)))
               (set_root r i))
      end
  end.

Definition InternalDocument_GarbageCollect (ticket : LTicket)
    (i : InternalDocument) : InternalDocument * Z :=
  match LRoot_GarbageCollect (root i) ticket with
  | (r, n) => (set_root r i, n)
  end.

(** [ensureClone], together with the clone it leaves in [d.clone], which
    is never nil afterwards. *)
Definition ensureClone (d : Document) : Document * LRoot :=
  match clone d with
  | None =>
      let copied := LRoot_DeepCopy (root (doc d)) in
      (set_clone (Some copied) d, copied)
  | Some cl => (d, cl)
  end.

(** The updater sees the context and, through the proxy, the clone. *)
Definition Updater : Type :=
  Context -> LRoot -> Context * LRoot * option Error.

(** How a call of the earlier facade ends. *)
Inductive ended : Type :=
| Returned (err : option Error) (w : World)
| Panics (reason : string) (w : World).

(** [Update] executes the given updater to update this document. *)
Definition Update (updater : Updater) (msgAndArgs : list iface) (w : World)
  : ended :=
  let '(d, cl) := ensureClone (facade w) in
  match Legacy.Update_message msgAndArgs with
  | Panicked reason => Panics reason {| facade := d; errorLog := errorLog w |}
  | Value message =>
      let ctx := NewContext (ChangeID.Next (changeID (doc d))) message in
      match updater ctx cl with
      | (_, _, Some err) =>
          (* drop clone because it is contaminated. *)
          Returned (Some err)
            {| facade := set_clone None d; errorLog := errorLog w ++ [err] |}
      | (ctx', cl', None) =>
          let d1 := set_clone (Some cl') d in
          if Context_HasOperations ctx' then
            let c := Context_ToChange ctx' in
            match Change_Execute c (root (doc d1)) with
            | (r, Some err) =>
                Returned (Some err)
                  {| facade := set_doc (set_root r (doc d1)) d1;
                     errorLog := errorLog w |}
            | (r, None) =>
                Returned None
                  {| facade :=
                       set_doc
                         (set_changeID (ctx_id ctx')
                            (set_localChanges (localChanges (doc d1) ++ [c])
                               (set_root r (doc d1))))
                         d1;
                     errorLog := errorLog w |}
            end
          else Returned None {| facade := d1; errorLog := errorLog w |}
      end
  end.

(** [GarbageCollect] purges elements that were removed before the given
    time. *)
Definition GarbageCollect (ticket : LTicket) (d : Document) : Document * Z :=
  let d1 :=
    match clone d with
    | Some cl => set_clone (Some (LRoot_GarbageCollect cl ticket).1) d
    | None => d
    end in
  match InternalDocument_GarbageCollect ticket (doc d1) with
  | (i, n) => (set_doc i d1, n)
  end.

Fixpoint executeOnClone (changes : list Change) (cl : LRoot)
  : LRoot * option Error :=
  match changes with
  | [] => (cl, None)
  | c :: rest =>
      match Change_Execute c cl with
      | (cl', Some err) => (cl', Some err)
      | (cl', None) => executeOnClone rest cl'
      end
  end.

Fixpoint removeApplied (clientSeq : Z) (l : list Change) : list Change :=
  match l with
  | [] => []
  | c :: rest =>
      if Change_ClientSeq c >? clientSeq then l
      else removeApplied clientSeq rest
  end.

(** Steps 02 to 04 of [ApplyChangePack]. The debug line that follows them
    in the source reads the document and changes nothing. *)
Definition afterRemoteChanges (pack : Pack) (d : Document) : Document :=
  let d2 :=
    set_doc
      (set_localChanges
         (removeApplied (Checkpoint.ClientSeq (pack_Checkpoint pack))
            (localChanges (doc d)))
         (doc d)) d in
  let d3 :=
    set_doc
      (set_checkpoint
         (Checkpoint.Forward (checkpoint (doc d2)) (pack_Checkpoint pack))
         (doc d2)) d2 in
  (GarbageCollect (pack_MinSyncedTicket pack) d3).1.

(** [ApplyChangePack] applies the given change pack into this document. *)
Definition ApplyChangePack (pack : Pack) (d : Document) : Document * option Error :=
  if Nat.ltb 0 (length (pack_Snapshot pack)) then
    let d1 := set_clone None d in
    match InternalDocument_applySnapshot (pack_Snapshot pack)
            (Checkpoint.ServerSeq (pack_Checkpoint pack)) (doc d1) with
    | (i, Some err) => (set_doc i d1, Some err)
    | (i, None) => (afterRemoteChanges pack (set_doc i d1), None)
    end
  else
    let '(d1, cl) := ensureClone d in
    match executeOnClone (pack_Changes pack) cl with
    | (cl', Some err) => (set_clone (Some cl') d1, Some err)
    | (cl', None) =>
        let d2 := set_clone (Some cl') d1 in
        match InternalDocument_applyChanges (pack_Changes pack) (doc d2) with
        | (i, Some err) => (set_doc i d2, Some err)
        | (i, None) => (afterRemoteChanges pack (set_doc i d2), None)
        end
    end.

End Document.

End LegacyFacade.

(** ** The flat element library for the earlier facade *)

Module LegacyCases.
Import Flat LegacyFacade.

#[export] Instance library : LegacyLibrary := {|
  LRoot := list node;
  LOperation := operation;
  LTicket := Z;
  LRoot_DeepCopy := fun r => r;
  LRoot_GarbageCollect := fun r ticket =>
    (List.filter (fun n => negb (purgeable ticket n)) r,
     Z.of_nat (length (List.filter (purgeable ticket) r)));
  LOperation_Execute := execute;
  LBytesToObject := decode
|}.

(** A removed replica with one field and no clone, and a quiet log. *)
Definition removedWorld : World :=
  {| facade :=
       {| doc := {| key := ("c", "d1"); status := StatusRemoved;
                    root := [Scenario.live "x" (Counter 1) 1];
                    checkpoint := Scenario.checkpointAt 0 0;
                    changeID := Scenario.actorA; localChanges := [] |};
          clone := None |};
     errorLog := [] |}.

(** What the proxy does for one mutation. *)
Definition record (op : operation) : Updater :=
  fun ctx cl =>
    match execute op cl with
    | (cl', Some err) => (ctx, cl', Some err)
    | (cl', None) =>
        ({| ctx_id := ctx_id ctx; ctx_message := ctx_message ctx;
            ctx_operations := ctx_operations ctx ++ [op] |}, cl', None)
    end.

Definition thenFail (u : Updater) (err : Error) : Updater :=
  fun ctx cl =>
    match u ctx cl with
    | (ctx', cl', None) => (ctx', cl', Some err)
    | failed => failed
    end.

Definition facadeOf (w : ended) : Document :=
  match w with Returned _ w' | Panics _ w' => facade w' end.

Definition attachedWorld : World :=
  {| facade :=
       {| doc := {| key := ("c", "d1"); status := StatusAttached; root := [];
                    checkpoint := Scenario.checkpointAt 0 0;
                    changeID := Scenario.actorA; localChanges := [] |};
          clone := None |};
     errorLog := [] |}.

Definition afterUpdate (u : Updater) (w : World) : World :=
  match Update u [] w with Returned _ w' | Panics _ w' => w' end.

(** Three updates in a row, and an acknowledgement of client sequence 2. *)
Definition threePending : Document :=
  facade
    (afterUpdate (record (Set_ "c" (Counter 3) 3))
       (afterUpdate (record (Set_ "b" (Counter 2) 2))
          (afterUpdate (record (Set_ "a" (Counter 1) 1)) attachedWorld))).

Definition ackTwo : Pack :=
  {| pack_Checkpoint := Scenario.checkpointAt 10 2; pack_Changes := [];
     pack_Snapshot := []; pack_MinSyncedTicket := 0 |}.

End LegacyCases.

(** * Properties *)

(** ** The change message *)

Lemma legacy_message_is_formatted_slice (msgAndArgs : list iface) :
  Legacy.Update_message msgAndArgs = Value (Sprintf "%+v" [ISlice msgAndArgs]).
Proof. reflexivity. Qed.

Lemma current_message_no_arguments : Update_message [] = Value EmptyString.
Proof. reflexivity. Qed.

Lemma current_message_single_string (s : string) :
  Update_message [IString s] = Value s.
Proof. reflexivity. Qed.

(** C9. The two versions of [Update] do not compute the same change
    message. With no message argument the earlier version yields the text
    of an empty slice, [[]], where the current one yields the empty string;
    with the single string [hello] the earlier version yields [[hello]]
    where the current one yields [hello]. *)
Theorem legacy_update_message_differs :
  Legacy.Update_message [] = Value "[]"
  /\ Update_message [] = Value EmptyString
  /\ Legacy.Update_message [IString "hello"] = Value "[hello]"
  /\ Update_message [IString "hello"] = Value "hello"
  /\ Legacy.Update_message [] <> Update_message [].
Proof.
  repeat split; try reflexivity.
  vm_compute. discriminate.
Qed.

(** ** Backend configuration *)

Lemma Validate_nil_iff (parse : string -> result Z) (c : Backend.Config) :
  Backend.Validate parse c = None <->
  is_Ok (parse (Backend.AuthWebhookMaxWaitInterval c)) = true
  /\ is_Ok (parse (Backend.AuthWebhookCacheAuthTTL c)) = true
  /\ is_Ok (parse (Backend.AuthWebhookCacheUnauthTTL c)) = true.
Proof.
  unfold Backend.Validate.
  destruct (parse (Backend.AuthWebhookMaxWaitInterval c)) as [w|e1]; cbn.
  - destruct (parse (Backend.AuthWebhookCacheAuthTTL c)) as [a|e2]; cbn.
    + destruct (parse (Backend.AuthWebhookCacheUnauthTTL c)) as [u|e3]; cbn.
      * tauto.
      * split; [discriminate | intros (_ & _ & H); discriminate H].
    + split; [discriminate | intros (_ & H & _); discriminate H].
  - split; [discriminate | intros (H & _); discriminate H].
Qed.

Lemma Validate_ignores_AdminTokenDuration
    (parse : string -> result Z) (c : Backend.Config) (s : string) :
  Backend.Validate parse (Backend.with_AdminTokenDuration s c)
  = Backend.Validate parse c.
Proof. reflexivity. Qed.

(** C10. [Validate] returns nil exactly when the three webhook duration
    strings parse, whatever the parser; its verdict does not depend on
    [AdminTokenDuration]; and with Go's [time.ParseDuration] there is a
    configuration, the one with the documented default [7d], that
    [Validate] accepts while [ParseAdminTokenDuration] panics. *)
Theorem Validate_checks_webhook_durations_only :
  (forall (parse : string -> result Z) (c : Backend.Config),
      Backend.Validate parse c = None <->
      is_Ok (parse (Backend.AuthWebhookMaxWaitInterval c)) = true
      /\ is_Ok (parse (Backend.AuthWebhookCacheAuthTTL c)) = true
      /\ is_Ok (parse (Backend.AuthWebhookCacheUnauthTTL c)) = true)
  /\ (forall (parse : string -> result Z) (c : Backend.Config) (s : string),
         Backend.Validate parse (Backend.with_AdminTokenDuration s c)
         = Backend.Validate parse c)
  /\ (exists (c : Backend.Config) (reason : string),
         Backend.Validate GoTime.ParseDuration c = None
         /\ Backend.ParseAdminTokenDuration GoTime.ParseDuration c
            = Panicked reason).
Proof.
  split; [exact Validate_nil_iff |].
  split; [exact Validate_ignores_AdminTokenDuration |].
  exists Scenario.defaults. eexists. split; vm_compute; reflexivity.
Qed.

(** ** Checkpoints *)

(** C7. [Forward] is the componentwise maximum, hence idempotent and
    commutative. *)
Theorem Checkpoint_Forward_componentwise_max :
  (forall a b : Checkpoint.t,
      Checkpoint.Forward a b
      = {| Checkpoint.ServerSeq :=
             Z.max (Checkpoint.ServerSeq a) (Checkpoint.ServerSeq b);
           Checkpoint.ClientSeq :=
             Z.max (Checkpoint.ClientSeq a) (Checkpoint.ClientSeq b) |})
  /\ (forall a : Checkpoint.t, Checkpoint.Forward a a = a)
  /\ (forall a b : Checkpoint.t, Checkpoint.Forward a b = Checkpoint.Forward b a).
Proof.
  split; [reflexivity |]. split.
  - intros [s c]. unfold Checkpoint.Forward; cbn. by rewrite !Z.max_id.
  - intros [s c] [s' c']. unfold Checkpoint.Forward; cbn.
    by rewrite (Z.max_comm s s'), (Z.max_comm c c').
Qed.

(** ** The facade, for every element library *)

Section Facade.

Context `{Lib : ElementLibrary}.

(** [ensureClone] never touches the authoritative replica or the channel;
    it either leaves both clone fields set or fails without any effect. *)
Lemma ensureClone_inv (d : Document) :
  match ensureClone d with
  | Next _ d1 =>
      doc d1 = doc d /\ events d1 = events d
      /\ cloneRoot d1 <> None /\ clonePresences d1 <> None
  | Raise _ d1 => d1 = d
  | Panic _ _ | Blocked _ => False
  end.
Proof.
  unfold ensureClone.
  destruct (cloneRoot d) as [cr|] eqn:Hcr.
  - destruct (clonePresences d) as [cp|] eqn:Hcp; cbn.
    + split_and!; congruence.
    + split_and!; cbn; congruence.
  - destruct (Root_DeepCopy (root (doc d))) as [copied|err]; [|done].
    cbn. destruct (clonePresences d) eqn:Hcp; split_and!; cbn; congruence.
Qed.

(** What [Update] has done when it reaches the updater. *)
Lemma prepareUpdate_inv (msgAndArgs : list iface) (d : Document) :
  match prepareUpdate msgAndArgs d with
  | Next (ctx, cr, cp) d1 =>
      doc d1 = doc d /\ events d1 = events d
      /\ cloneRoot d1 = Some cr /\ clonePresences d1 = Some cp
      /\ status (doc d) <> StatusRemoved
  | Raise _ d1 => d1 = d
  | Panic _ d1 => doc d1 = doc d /\ events d1 = events d
  | Blocked _ => False
  end.
Proof.
  unfold prepareUpdate.
  destruct (StatusType_eqb (status (doc d)) StatusRemoved) eqn:Hst; [done|].
  unfold bind.
  pose proof (ensureClone_inv d) as Hinv.
  destruct (ensureClone d) as [[] d1|err d1|err d1|d1]; try done.
  destruct Hinv as (Hdoc & Hev & Hcr & Hcp).
  destruct (Update_message msgAndArgs) as [message|reason]; [|by split].
  destruct (cloneRoot d1) as [cr|] eqn:Hr; [|by split].
  destruct (clonePresences d1) as [cp|] eqn:Hp; [|by split].
  cbn. split_and!; try done.
  intros Hrem. by rewrite Hrem in Hst.
Qed.

(** C4. On a removed document [Update] returns [ErrDocumentRemoved] and
    leaves the whole facade as it was: authoritative replica, both clone
    fields, pending changes and channel. The outcome is the same for every
    updater, which is therefore not run. *)
Theorem Update_removed_rejected
    (updater : Updater) (msgAndArgs : list iface) (d : Document) :
  status (doc d) = StatusRemoved ->
  Update updater msgAndArgs d = Raise ErrDocumentRemoved d
  /\ forall other : Updater,
       Update other msgAndArgs d = Update updater msgAndArgs d.
Proof.
  intros Hst.
  assert (Hall : forall u : Updater,
             Update u msgAndArgs d = Raise ErrDocumentRemoved d).
  { intros u. unfold Update, bind, prepareUpdate. by rewrite Hst. }
  split; [apply Hall|]. intros other. by rewrite !Hall.
Qed.

(** The channel after [Update] holds what it held before, however the
    call ends. *)
Lemma Update_events (updater : Updater) (msgAndArgs : list iface) (d : Document) :
  events (final (Update updater msgAndArgs d)) = events d.
Proof.
  unfold Update, bind.
  pose proof (prepareUpdate_inv msgAndArgs d) as Hinv.
  destruct (prepareUpdate msgAndArgs d) as [[[ctx cr] cp] d1|err d1|err d1|d1];
    cbn; [| by subst | tauto | done].
  destruct Hinv as (_ & Hev & _).
  destruct (updater ctx cr cp) as [[[ctx' cr'] cp'] [err|]]; cbn; [done|].
  destruct (Context_HasChange ctx'); cbn; [|done].
  destruct (Change_Execute _ _ _) as [[r p] [err|]]; cbn; done.
Qed.

(** C6, as the code has it. [Update] publishes nothing: after a successful
    call, with or without a presence delta in the change, the channel
    holds exactly what it held before the call. *)
Theorem Update_publishes_no_event
    (updater : Updater) (msgAndArgs : list iface) (d d' : Document) :
  Update updater msgAndArgs d = Next tt d' ->
  events d' = events d.
Proof.
  intros Hrun. pose proof (Update_events updater msgAndArgs d) as Hev.
  by rewrite Hrun in Hev.
Qed.

(** C1, as the code has it. When [Update] returns an error, the key,
    status, checkpoint, change ID and pending changes of the authoritative
    replica and the channel are those of before the call. Either the whole
    authoritative replica is unchanged, or the updater succeeded, recorded
    a change, and executing that change on the authoritative root and
    presences returned the error: root and presences are then what that
    execution left. When the updater returned the error, the authoritative
    replica is unchanged, both clone fields are nil and the error is the
    updater's. *)
Theorem Update_failure
    (updater : Updater) (msgAndArgs : list iface) (d d' : Document) (e : Error) :
  Update updater msgAndArgs d = Raise e d' ->
  (key (doc d') = key (doc d) /\ status (doc d') = status (doc d)
   /\ checkpoint (doc d') = checkpoint (doc d)
   /\ changeID (doc d') = changeID (doc d)
   /\ localChanges (doc d') = localChanges (doc d)
   /\ events d' = events d)
  /\ (doc d' = doc d
      \/ exists ctx cr cp d1 ctx' cr' cp',
           prepareUpdate msgAndArgs d = Next (ctx, cr, cp) d1
           /\ updater ctx cr cp = (ctx', cr', cp', None)
           /\ Context_HasChange ctx' = true
           /\ Change_Execute (Context_ToChange ctx') (root (doc d)) (presences (doc d))
              = (root (doc d'), presences (doc d'), Some e))
  /\ (forall ctx cr cp d1 ctx' cr' cp' e',
         prepareUpdate msgAndArgs d = Next (ctx, cr, cp) d1 ->
         updater ctx cr cp = (ctx', cr', cp', Some e') ->
         e = e' /\ doc d' = doc d
         /\ cloneRoot d' = None /\ clonePresences d' = None).
Proof.
  unfold Update, bind. intros Hrun.
  pose proof (prepareUpdate_inv msgAndArgs d) as Hinv.
  destruct (prepareUpdate msgAndArgs d) as [[[ctx cr] cp] d1|err d1|err d1|d1];
    try done.
  - destruct Hinv as (Hdoc & Hev & _).
    destruct (updater ctx cr cp) as [[[ctx' cr'] cp'] [err|]] eqn:Hu.
    + injection Hrun as -> <-. cbn. rewrite Hdoc, Hev.
      split; [done|]. split; [by left|].
      intros ? ? ? ? ? ? ? ? [= <- <- <- <-] Hu'.
      rewrite Hu in Hu'. by injection Hu' as _ _ _ <-.
    + cbn in Hrun. destruct (Context_HasChange ctx') eqn:Hhas; [|done].
      destruct (Change_Execute _ _ _) as [[r p] [err|]] eqn:Hex; [|done].
      injection Hrun as -> <-. cbn. rewrite Hdoc, Hev.
      split; [done|]. split.
      * right. exists ctx, cr, cp, d1, ctx', cr', cp'.
        cbn in Hex. rewrite Hdoc in Hex. done.
      * intros ? ? ? ? ? ? ? ? [= <- <- <- <-] Hu'.
        rewrite Hu in Hu'. discriminate Hu'.
  - injection Hrun as -> <-. subst d1.
    split; [done|]. split; [by left|]. intros; discriminate.
Qed.


(** ** Garbage collection *)

(** [GarbageCollect] either returns or panics, and touches nothing but the
    two roots. *)
Lemma GarbageCollect_frame (ticket : Ticket) (d : Document) :
  match GarbageCollect ticket d with
  | Next _ d1 | Panic _ d1 =>
      key (doc d1) = key (doc d) /\ status (doc d1) = status (doc d)
      /\ presences (doc d1) = presences (doc d)
      /\ checkpoint (doc d1) = checkpoint (doc d)
      /\ changeID (doc d1) = changeID (doc d)
      /\ localChanges (doc d1) = localChanges (doc d)
      /\ clonePresences d1 = clonePresences d /\ events d1 = events d
      /\ (cloneRoot d = None -> cloneRoot d1 = None)
  | Raise _ _ | Blocked _ => False
  end.
Proof.
  unfold GarbageCollect, InternalDocument_GarbageCollect.
  destruct (cloneRoot d) as [cr|] eqn:Hcr.
  - destruct (Root_GarbageCollect cr ticket) as [cr' [k|err]]; cbn.
    + destruct (Root_GarbageCollect (root (doc d)) ticket) as [r [n|err]];
        cbn; split_and!; done.
    + split_and!; done.
  - cbn. destruct (Root_GarbageCollect (root (doc d)) ticket) as [r [n|err]];
      cbn; split_and!; done.
Qed.

(** C8. When garbage collection of the roots succeeds, [GarbageCollect]
    returns the number of nodes purged from the authoritative root. The
    authoritative root is collected; the clone root is collected when
    there is a clone and stays nil when there is none; the count of the
    clone does not reach the result; nothing else changes. *)
Theorem GarbageCollect_returns_authoritative_count
    (ticket : Ticket) (d : Document) (r' : Root) (n : Z) :
  Root_GarbageCollect (root (doc d)) ticket = (r', Ok n) ->
  (forall cr, cloneRoot d = Some cr ->
              is_Ok (Root_GarbageCollect cr ticket).2 = true) ->
  GarbageCollect ticket d
  = Next n
      {| doc := set_root r' (doc d);
         cloneRoot :=
           match cloneRoot d with
           | Some cr => Some (Root_GarbageCollect cr ticket).1
           | None => None
           end;
         clonePresences := clonePresences d;
         events := events d |}.
Proof.
  intros Hauth Hclone.
  unfold GarbageCollect, InternalDocument_GarbageCollect.
  destruct (cloneRoot d) as [cr|] eqn:Hcr.
  - specialize (Hclone cr eq_refl).
    destruct (Root_GarbageCollect cr ticket) as [cr' [k|err]]; [|done].
    cbn. by rewrite Hauth.
  - cbn. rewrite Hauth. cbn. unfold set_doc. by rewrite Hcr.
Qed.

(** ** Applying a change pack *)

Lemma executeOnClone_inv (changes : list Change) (d : Document) :
  match executeOnClone changes d with
  | Next _ d1 | Panic _ d1 => doc d1 = doc d /\ events d1 = events d
  | Raise _ d1 =>
      doc d1 = doc d /\ events d1 = events d
      /\ cloneRoot d1 <> None /\ clonePresences d1 <> None
  | Blocked _ => False
  end.
Proof.
  revert d. induction changes as [|c rest IH]; intros d; cbn; [done|].
  destruct (cloneRoot d) as [cr|]; [|done].
  destruct (clonePresences d) as [cp|]; [|done].
  destruct (Change_Execute c cr cp) as [[cr' cp'] [err|]]; [done|].
  specialize (IH (set_clonePresences (Some cp') (set_cloneRoot (Some cr') d))).
  by destruct (executeOnClone rest _).
Qed.

Lemma ApplyChanges_frame (changes : list Change) (i : InternalDocument) :
  let i' := (InternalDocument_ApplyChanges changes i).1 in
  key i' = key i /\ status i' = status i
  /\ checkpoint i' = checkpoint i /\ localChanges i' = localChanges i
  /\ ChangeID.clientSeq (changeID i') = ChangeID.clientSeq (changeID i).
Proof.
  revert i. induction changes as [|c rest IH]; intros i; cbn; [done|].
  destruct (Change_Execute c (root i) (presences i)) as [[r p] [err|]]; [done|].
  match goal with
  | |- context [InternalDocument_ApplyChanges rest ?j] =>
      specialize (IH j); destruct (InternalDocument_ApplyChanges rest j) as [i'' [evs|err]]
  end; cbn in *; done.
Qed.

Lemma sendAll_frame (evs : list DocEvent) (d : Document) :
  match sendAll evs d with
  | Next _ d1 | Blocked d1 =>
      doc d1 = doc d /\ cloneRoot d1 = cloneRoot d
      /\ clonePresences d1 = clonePresences d
  | Raise _ _ | Panic _ _ => False
  end.
Proof.
  revert d. induction evs as [|e rest IH]; intros d; cbn; [done|].
  unfold bind, send. destruct (length (events d) <? 1)%nat; [|done].
  specialize (IH (set_events (events d ++ [e]) d)).
  destruct (sendAll rest _); done.
Qed.

(** Step 01 leaves the pending changes, the key, the status and the
    client sequence of the change ID alone. *)
Lemma applyRemoteChanges_frame (pack : Pack) (d : Document) :
  let d1 := final (applyRemoteChanges pack d) in
  key (doc d1) = key (doc d) /\ status (doc d1) = status (doc d)
  /\ ChangeID.clientSeq (changeID (doc d1)) = ChangeID.clientSeq (changeID (doc d))
  /\ localChanges (doc d1) = localChanges (doc d).
Proof.
  unfold applyRemoteChanges.
  destruct (0 <? length (pack_Snapshot pack))%nat.
  - unfold bind, modify, onDoc, InternalDocument_applySnapshot. cbn.
    destruct (BytesToSnapshot (pack_Snapshot pack)) as [[r p]|err]; done.
  - unfold bind.
    pose proof (ensureClone_inv d) as H1.
    destruct (ensureClone d) as [[] d1|err d1|err d1|d1]; try done; [|by subst].
    destruct H1 as (Hdoc & _).
    pose proof (executeOnClone_inv (pack_Changes pack) d1) as H2.
    destruct (executeOnClone (pack_Changes pack) d1) as [[] d2|err d2|err d2|d2];
      try done; cbn; try (destruct H2 as (-> & _); by rewrite Hdoc).
    destruct H2 as (Hdoc2 & _).
    pose proof (ApplyChanges_frame (pack_Changes pack) (doc d2)) as H3.
    destruct (InternalDocument_ApplyChanges (pack_Changes pack) (doc d2))
      as [i [evs|err]]; cbn in H3; destruct H3 as (Hk & Hs & _ & Hl & Hc).
    + pose proof (sendAll_frame evs (set_doc i d2)) as H4.
      destruct (sendAll evs (set_doc i d2)) as [[] d3|err d3|err d3|d3];
        try done; cbn; destruct H4 as (-> & _); cbn;
        by rewrite Hk, Hs, Hl, Hc, Hdoc2, Hdoc.
    + cbn. by rewrite Hk, Hs, Hl, Hc, Hdoc2, Hdoc.
Qed.

(** Steps 02 to 05 replace the pending changes by what the loop of step 02
    leaves. *)
Lemma afterRemoteChanges_localChanges (pack : Pack) (d d' : Document) :
  afterRemoteChanges pack d = Next tt d' ->
  localChanges (doc d')
  = removeApplied (Checkpoint.ClientSeq (pack_Checkpoint pack)) (localChanges (doc d)).
Proof.
  unfold afterRemoteChanges, bind, modify. intros Hrun.
  match type of Hrun with
  | context [GarbageCollect ?t ?x] =>
      pose proof (GarbageCollect_frame t x) as Hgc;
      destruct (GarbageCollect t x) as [n d1|err d1|err d1|d1]; try done
  end.
  destruct Hgc as (_ & _ & _ & _ & _ & Hl & _).
  destruct (pack_IsRemoved pack); cbn in Hrun; injection Hrun as <-; cbn; by rewrite Hl.
Qed.

Lemma ApplyChangePack_localChanges (pack : Pack) (d d' : Document) :
  ApplyChangePack pack d = Next tt d' ->
  localChanges (doc d')
  = removeApplied (Checkpoint.ClientSeq (pack_Checkpoint pack)) (localChanges (doc d)).
Proof.
  unfold ApplyChangePack, bind. intros Hrun.
  pose proof (applyRemoteChanges_frame pack d) as Hfr.
  destruct (applyRemoteChanges pack d) as [[] d1|err d1|err d1|d1]; try done.
  cbn in Hfr. destruct Hfr as (_ & _ & _ & <-).
  by apply afterRemoteChanges_localChanges.
Qed.

(** On a list in ascending order of client sequence, dropping the head
    while it is acknowledged keeps exactly the changes above the
    checkpoint. *)
Lemma removeApplied_filter (clientSeq : Z) (l : list Change) :
  ascending (map Change_ClientSeq l) = true ->
  removeApplied clientSeq l
  = List.filter (fun c => clientSeq <? Change_ClientSeq c) l.
Proof.
  induction l as [|c rest IH]; [done|]. intros Hasc.
  assert (Hrest : ascending (map Change_ClientSeq rest) = true).
  { cbn in Hasc. destruct (map Change_ClientSeq rest); [done|].
    by apply andb_prop in Hasc as [_ ?]. }
  cbn [removeApplied List.filter].
  destruct (Change_ClientSeq c >? clientSeq) eqn:Hgt.
  - assert (Hlt : (clientSeq <? Change_ClientSeq c) = true) by lia.
    rewrite Hlt. f_equal.
    clear IH Hrest. revert c Hasc Hgt Hlt.
    induction rest as [|c' rest' IH']; intros c Hasc Hgt Hlt; [done|].
    cbn [List.filter].
    assert (Hc' : Change_ClientSeq c <= Change_ClientSeq c').
    { cbn in Hasc. apply andb_prop in Hasc as [? _]. lia. }
    assert (Hgt' : (Change_ClientSeq c' >? clientSeq) = true) by lia.
    assert (Hlt' : (clientSeq <? Change_ClientSeq c') = true) by lia.
    rewrite Hlt'. f_equal. apply (IH' c'); try done.
    cbn in Hasc. by apply andb_prop in Hasc as [_ ?].
  - assert (Hlt : (clientSeq <? Change_ClientSeq c) = false) by lia.
    rewrite Hlt. by apply IH.
Qed.

(** C3. After [ApplyChangePack] returns nil on a document whose pending
    changes are in ascending order of client sequence (the order in which
    [Update] appends them), the pending changes are exactly those whose
    client sequence is strictly greater than the client sequence of the
    pack's checkpoint, in their original order. *)
Theorem ApplyChangePack_prunes_acknowledged (pack : Pack) (d d' : Document) :
  ApplyChangePack pack d = Next tt d' ->
  ascending (map Change_ClientSeq (localChanges (doc d))) = true ->
  localChanges (doc d')
  = List.filter
      (fun c => Checkpoint.ClientSeq (pack_Checkpoint pack) <? Change_ClientSeq c)
      (localChanges (doc d)).
Proof.
  intros Hrun Hasc.
  rewrite (ApplyChangePack_localChanges pack d d' Hrun).
  by apply removeApplied_filter.
Qed.

(** With a snapshot in the pack the clone is gone, however the call
    ends. *)
Lemma ApplyChangePack_snapshot_discards_clone (pack : Pack) (d : Document) :
  (0 < length (pack_Snapshot pack))%nat ->
  cloneRoot (final (ApplyChangePack pack d)) = None
  /\ clonePresences (final (ApplyChangePack pack d)) = None.
Proof.
  intros Hlen. apply Nat.ltb_lt in Hlen.
  unfold ApplyChangePack, applyRemoteChanges. rewrite Hlen.
  unfold bind, modify, onDoc, InternalDocument_applySnapshot. cbn.
  destruct (BytesToSnapshot (pack_Snapshot pack)) as [[r p]|err]; [|done].
  unfold afterRemoteChanges, bind, modify.
  match goal with
  | |- context [GarbageCollect ?t ?x] =>
      pose proof (GarbageCollect_frame t x) as Hgc;
      destruct (GarbageCollect t x) as [n d1|err d1|err d1|d1]; try done
  end; destruct Hgc as (_ & _ & _ & _ & _ & _ & Hcp & _ & Hcr);
    specialize (Hcr eq_refl); cbn in Hcp.
  - destruct (pack_IsRemoved pack); cbn; done.
  - done.
Qed.

(** C5. A pack with a non-empty snapshot whose bytes decode, on a root
    that garbage collection accepts: [ApplyChangePack] returns nil; both
    clone fields are nil; the authoritative presences are the decoded
    ones and the authoritative root is the decoded root (after step 04
    has collected it with the pack's ticket); the server sequence of the
    checkpoint is the pack's; the pending changes are not cleared, only
    pruned by the loop of step 02; nothing is published; and the changes
    the pack may carry play no part in the outcome. *)
Theorem ApplyChangePack_snapshot
    (pack : Pack) (d : Document) (r r' : Root) (p : PresenceMap) (n : Z) :
  (0 < length (pack_Snapshot pack))%nat ->
  BytesToSnapshot (pack_Snapshot pack) = Ok (r, p) ->
  Root_GarbageCollect r (pack_MinSyncedTicket pack) = (r', Ok n) ->
  exists d',
    ApplyChangePack pack d = Next tt d'
    /\ cloneRoot d' = None /\ clonePresences d' = None
    /\ root (doc d') = r' /\ presences (doc d') = p
    /\ Checkpoint.ServerSeq (checkpoint (doc d'))
       = Checkpoint.ServerSeq (pack_Checkpoint pack)
    /\ localChanges (doc d')
       = removeApplied (Checkpoint.ClientSeq (pack_Checkpoint pack))
           (localChanges (doc d))
    /\ events d' = events d
    /\ forall changes : list Change,
         ApplyChangePack (set_pack_Changes changes pack) d
         = ApplyChangePack pack d.
Proof.
  intros Hlen Hdec Hgc. apply Nat.ltb_lt in Hlen.
  assert (Hsame : forall changes : list Change,
             ApplyChangePack (set_pack_Changes changes pack) d
             = ApplyChangePack pack d).
  { intros changes. unfold ApplyChangePack, applyRemoteChanges.
    cbn [pack_Snapshot set_pack_Changes]. by rewrite Hlen. }
  enough (exists d',
             ApplyChangePack pack d = Next tt d'
             /\ cloneRoot d' = None /\ clonePresences d' = None
             /\ root (doc d') = r' /\ presences (doc d') = p
             /\ Checkpoint.ServerSeq (checkpoint (doc d'))
                = Checkpoint.ServerSeq (pack_Checkpoint pack)
             /\ localChanges (doc d')
                = removeApplied (Checkpoint.ClientSeq (pack_Checkpoint pack))
                    (localChanges (doc d))
             /\ events d' = events d)
    as (d' & ? & ? & ? & ? & ? & ? & ? & ?)
    by (exists d'; split_and!; done).
  clear Hsame.
  unfold ApplyChangePack, applyRemoteChanges. rewrite Hlen.
  unfold bind, modify, onDoc, InternalDocument_applySnapshot. cbn.
  rewrite Hdec.
  unfold afterRemoteChanges, bind, modify, GarbageCollect,
    InternalDocument_GarbageCollect. cbn.
  rewrite Hgc. cbn.
  destruct (pack_IsRemoved pack); cbn; eexists; (split; [reflexivity|]);
    split_and!; first [done | apply Z.max_id].
Qed.

(** Without a snapshot, a change that fails on the clone ends the call
    with that error; the authoritative replica is as before, and both
    clone fields are still set. *)
Lemma ApplyChangePack_clone_failure
    (pack : Pack) (d d1 d2 : Document) (e : Error) :
  length (pack_Snapshot pack) = 0%nat ->
  ensureClone d = Next tt d1 ->
  executeOnClone (pack_Changes pack) d1 = Raise e d2 ->
  ApplyChangePack pack d = Raise e d2
  /\ doc d2 = doc d /\ cloneRoot d2 <> None /\ clonePresences d2 <> None.
Proof.
  intros Hlen Hclone Hexec.
  unfold ApplyChangePack, applyRemoteChanges, bind.
  rewrite Hlen. change (0 <? 0)%nat with false. cbv beta iota.
  rewrite Hclone. cbv beta iota. rewrite Hexec. split; [done|].
  pose proof (ensureClone_inv d) as H1. rewrite Hclone in H1.
  pose proof (executeOnClone_inv (pack_Changes pack) d1) as H2.
  rewrite Hexec in H2. destruct H1 as (<- & _), H2 as (-> & _ & ? & ?). done.
Qed.

(** ** The order of the pending changes *)

Lemma ascending_cons (a : Z) (l : list Z) :
  ascending (a :: l) = true ->
  ascending l = true.
Proof.
  destruct l as [|b l]; [done|]. cbn. intros H. by apply andb_prop in H as [_ ?].
Qed.

Lemma ascending_app_l (l : list Z) (x : Z) :
  ascending (l ++ [x]) = true -> ascending l = true.
Proof.
  induction l as [|a l IH]; [done|]. intros H.
  destruct l as [|b l]; [done|].
  cbn in H |- *. apply andb_prop in H as [Hab Hrest].
  rewrite Hab. cbn. by apply IH.
Qed.

Lemma ascending_raise_last (l : list Z) (x y : Z) :
  ascending (l ++ [x]) = true -> x <= y -> ascending (l ++ [y; y]) = true.
Proof.
  induction l as [|a l IH]; intros H Hxy.
  - cbn. rewrite Z.leb_refl. done.
  - destruct l as [|b l].
    + cbn in H |- *. apply andb_prop in H as [Hax _].
      rewrite Z.leb_refl, andb_true_r. cbn. apply Z.leb_le. lia.
    + cbn in H. apply andb_prop in H as [Hab Hrest].
      change ((a <=? b) && ascending ((b :: l) ++ [y; y]) = true).
      rewrite Hab. cbn [andb]. by apply IH.
Qed.

Lemma removeApplied_ascending (clientSeq : Z) (l : list Change) (x : Z) :
  ascending (map Change_ClientSeq l ++ [x]) = true ->
  ascending (map Change_ClientSeq (removeApplied clientSeq l) ++ [x]) = true.
Proof.
  induction l as [|c rest IH]; [done|]. intros H.
  cbn [removeApplied]. destruct (Change_ClientSeq c >? clientSeq); [done|].
  apply IH. by apply (ascending_cons (Change_ClientSeq c)).
Qed.

(** The order holds on a document without pending changes, and it gives
    the hypothesis of the pruning theorem. *)
Lemma pendingInOrder_no_pending (d : Document) :
  localChanges (doc d) = [] -> pendingInOrder d = true.
Proof. unfold pendingInOrder. by intros ->. Qed.

Lemma pendingInOrder_ascending (d : Document) :
  pendingInOrder d = true ->
  ascending (map Change_ClientSeq (localChanges (doc d))) = true.
Proof. apply ascending_app_l. Qed.

(** [Update] keeps the order, as long as the client sequence does not wrap
    around and the updater leaves the ID of the context alone (the proxies
    only issue tickets and push operations). *)
Lemma Update_keeps_order
    (updater : Updater) (msgAndArgs : list iface) (d d' : Document) :
  Update updater msgAndArgs d = Next tt d' ->
  pendingInOrder d = true ->
  0 <= ChangeID.clientSeq (changeID (doc d)) < 2 ^ 32 - 1 ->
  (forall ctx cr cp, ctx_id (updater ctx cr cp).1.1.1 = ctx_id ctx) ->
  pendingInOrder d' = true.
Proof.
  unfold Update, bind. intros Hrun Hord Hrange Hid.
  unfold prepareUpdate in Hrun.
  destruct (StatusType_eqb (status (doc d)) StatusRemoved); [done|].
  unfold bind in Hrun.
  pose proof (ensureClone_inv d) as Hinv.
  destruct (ensureClone d) as [[] d1|err d1|err d1|d1]; try done.
  destruct Hinv as (Hdoc & _).
  destruct (Update_message msgAndArgs) as [message|reason]; [|done].
  destruct (cloneRoot d1) as [cr|]; [|done].
  destruct (clonePresences d1) as [cp|]; [|done].
  cbn in Hrun.
  match type of Hrun with
  | context [updater ?c ?r ?p] =>
      specialize (Hid c r p);
      destruct (updater c r p) as [[[ctx' cr'] cp'] [err|]]; [done|]
  end.
  cbn in Hid, Hrun.
  destruct (Context_HasChange ctx'); cbn in Hrun.
  - destruct (Change_Execute _ _ _) as [[r p] [err|]]; [done|].
    injection Hrun as <-. unfold pendingInOrder in *. cbn.
    unfold Change_ClientSeq at 1. rewrite map_app. cbn.
    unfold Context_ID. rewrite Hid, Hdoc. cbn.
    rewrite <- app_assoc. cbn.
    apply (ascending_raise_last _ (ChangeID.clientSeq (changeID (doc d)))); [done|].
    rewrite Z.mod_small; lia.
  - injection Hrun as <-. unfold pendingInOrder in *. cbn. by rewrite Hdoc.
Qed.

(** [ApplyChangePack] keeps the order. *)
Lemma ApplyChangePack_keeps_order (pack : Pack) (d d' : Document) :
  ApplyChangePack pack d = Next tt d' ->
  pendingInOrder d = true ->
  pendingInOrder d' = true.
Proof.
  unfold ApplyChangePack, bind. intros Hrun Hord.
  pose proof (applyRemoteChanges_frame pack d) as Hfr.
  destruct (applyRemoteChanges pack d) as [[] d1|err d1|err d1|d1]; try done.
  cbn in Hfr. destruct Hfr as (_ & _ & Hcs & Hl).
  pose proof (afterRemoteChanges_localChanges pack d1 d' Hrun) as Hl'.
  unfold afterRemoteChanges, bind, modify in Hrun.
  match type of Hrun with
  | context [GarbageCollect ?t ?x] =>
      pose proof (GarbageCollect_frame t x) as Hgc;
      destruct (GarbageCollect t x) as [n d2|err d2|err d2|d2]; try done
  end.
  destruct Hgc as (_ & _ & _ & _ & Hid & _). cbn in Hid.
  assert (Hid' : changeID (doc d') = changeID (doc d1)).
  { destruct (pack_IsRemoved pack); cbn in Hrun; injection Hrun as <-; done. }
  unfold pendingInOrder in *. rewrite Hl', Hid', Hcs, Hl.
  by apply removeApplied_ascending.
Qed.

End Facade.

(** ** Concrete runs on the flat element library *)

Section Runs.

Import Flat Scenario.

Lemma Update_removed_rejected_witness :
  status (doc removed) = StatusRemoved
  /\ Update insertX [] removed = Raise ErrDocumentRemoved removed.
Proof.
  split; [reflexivity|].
  exact (proj1 (Update_removed_rejected insertX [] removed eq_refl)).
Defined.

(** Scenario 2 of the specification: the updater fails with [boom]; the
    authoritative replica keeps its single field and single pending
    change, and the clone is dropped. *)
Lemma Update_failure_witness :
  Update insertYThenBoom [] afterInsert
  = Raise boom (final (Update insertYThenBoom [] afterInsert))
  /\ doc (final (Update insertYThenBoom [] afterInsert)) = doc afterInsert
  /\ cloneRoot (final (Update insertYThenBoom [] afterInsert)) = None
  /\ clonePresences (final (Update insertYThenBoom [] afterInsert)) = None.
Proof.
  assert (Hrun : Update insertYThenBoom [] afterInsert
                 = Raise boom (final (Update insertYThenBoom [] afterInsert)))
    by (vm_compute; reflexivity).
  split; [exact Hrun|].
  destruct (Update_failure insertYThenBoom [] afterInsert _ boom Hrun)
    as (_ & _ & Hupd).
  assert (Hprep : exists staged d1,
             prepareUpdate [] afterInsert = Next staged d1
             /\ exists ctx' cr' cp',
                  insertYThenBoom staged.1.1 staged.1.2 staged.2
                  = (ctx', cr', cp', Some boom)).
  { eexists. eexists. split; [vm_compute; reflexivity|].
    eexists. eexists. eexists. vm_compute. reflexivity. }
  destruct Hprep as ([[ctx cr] cp] & d1 & Hp & ctx' & cr' & cp' & Hu).
  destruct (Hupd ctx cr cp d1 ctx' cr' cp' boom Hp Hu) as (_ & ? & ? & ?).
  done.
Defined.

(** C1, refuted as stated. After [badPack] was rejected the clone holds
    [x] as a counter while the authoritative root holds it as a string.
    The updater adds [y] and increases [x]; both succeed on the clone.
    Executing the change on the authoritative root adds [y], then fails
    on [x]: [Update] returns that error and the authoritative root has
    gained [y]. *)
Lemma Update_failure_leaves_partial_change :
  exists d',
    Update addThenIncrease [] afterBadPack = Raise ErrNotApplicableDataType d'
    /\ root (doc afterBadPack) = [live "x" (Text "a") 1; live "w" (Text "b") 2]
    /\ root (doc d') = [live "x" (Text "a") 1; live "w" (Text "b") 2; live "y" (Counter 5) 7]
    /\ doc d' <> doc afterBadPack.
Proof.
  eexists. split; [vm_compute; reflexivity|].
  split; [reflexivity|]. split; [reflexivity|].
  intros Heq. apply (f_equal root) in Heq. vm_compute in Heq. discriminate Heq.
Qed.

(** C2, on the failing input. The single change of [badPack] sets [x] and
    then fails on [w] while it is executed on the clone.
    [ApplyChangePack] returns the error and the authoritative replica is
    untouched, but the clone is not dropped: it stays in place with [x]
    already overwritten. *)
Theorem ApplyChangePack_failed_change_keeps_clone :
  exists d',
    ApplyChangePack badPack strings = Raise ErrNotApplicableDataType d'
    /\ doc d' = doc strings
    /\ cloneRoot d' = Some [live "x" (Counter 1) 5; live "w" (Text "b") 2]
    /\ clonePresences d' = Some ∅.
Proof.
  eexists. split; [vm_compute; reflexivity|].
  split; [reflexivity|]. split; [reflexivity|]. vm_compute. reflexivity.
Qed.

(** Scenario 6 of the specification: pending client sequences 1, 2, 3 and
    a checkpoint with client sequence 2 leave the change numbered 3. *)
Lemma ApplyChangePack_prunes_acknowledged_witness :
  ApplyChangePack ackTwo threePending
  = Next tt (final (ApplyChangePack ackTwo threePending))
  /\ map Change_ClientSeq (localChanges (doc threePending)) = [1; 2; 3]
  /\ ascending (map Change_ClientSeq (localChanges (doc threePending))) = true
  /\ map Change_ClientSeq
       (localChanges (doc (final (ApplyChangePack ackTwo threePending)))) = [3].
Proof.
  assert (Hrun : ApplyChangePack ackTwo threePending
                 = Next tt (final (ApplyChangePack ackTwo threePending)))
    by (vm_compute; reflexivity).
  assert (Hasc : ascending (map Change_ClientSeq (localChanges (doc threePending)))
                 = true) by (vm_compute; reflexivity).
  split; [exact Hrun|]. split; [vm_compute; reflexivity|]. split; [exact Hasc|].
  rewrite (ApplyChangePack_prunes_acknowledged ackTwo threePending _ Hrun Hasc).
  vm_compute. reflexivity.
Defined.

(** C6, refuted as stated. The updater changes the presence of the actor;
    [Update] succeeds, the presence is installed and the pending change
    carries the delta, yet the channel is still empty. *)
Lemma Update_presence_delta_not_published :
  exists d' c,
    Update moveCursor [] fresh = Next tt d'
    /\ localChanges (doc d') = [c]
    /\ change_PresenceChange c = Some {["cursor" := "1"]}
    /\ presences (doc d') !! "A" = Some {["cursor" := "1"]}
    /\ events fresh = [] /\ events d' = [].
Proof.
  eexists. eexists. split; [vm_compute; reflexivity|].
  split; [reflexivity|]. split; [vm_compute; reflexivity|].
  split; [vm_compute; reflexivity|]. split; reflexivity.
Qed.

Lemma Update_publishes_no_event_witness :
  Update moveCursor [] fresh = Next tt (final (Update moveCursor [] fresh))
  /\ events (final (Update moveCursor [] fresh)) = events fresh.
Proof.
  assert (Hrun : Update moveCursor [] fresh
                 = Next tt (final (Update moveCursor [] fresh)))
    by (vm_compute; reflexivity).
  split; [exact Hrun|].
  exact (Update_publishes_no_event moveCursor [] fresh _ Hrun).
Defined.

(** A snapshot arrives while three changes are pending: the root becomes
    the decoded one, the change numbered 3 survives, and the change in the
    pack is not executed. *)
Lemma ApplyChangePack_snapshot_witness :
  (0 < length (pack_Snapshot snapshotPack))%nat
  /\ BytesToSnapshot (pack_Snapshot snapshotPack)
     = Ok ([live "x" (Counter 7) 1], ∅)
  /\ exists d',
       ApplyChangePack snapshotPack threePending = Next tt d'
       /\ cloneRoot d' = None /\ clonePresences d' = None
       /\ root (doc d')
          = [live "x" (Counter 7) 1]
       /\ Checkpoint.ServerSeq (checkpoint (doc d')) = 10
       /\ map Change_ClientSeq (localChanges (doc d')) = [3].
Proof.
  assert (Hlen : (0 < length (pack_Snapshot snapshotPack))%nat) by (cbn; lia).
  split; [exact Hlen|]. split; [reflexivity|].
  destruct (@ApplyChangePack_snapshot library snapshotPack threePending
              [live "x" (Counter 7) 1] _ ∅ 0 Hlen eq_refl eq_refl)
    as (d' & Hrun & Hcr & Hcp & Hroot & _ & Hseq & Hloc & _).
  exists d'. split_and!; try done.
  rewrite Hloc. vm_compute. reflexivity.
Defined.

(** The clone holds two purgeable tombstones, the authoritative root one:
    the result is 1. *)
Lemma GarbageCollect_returns_authoritative_count_witness :
  @Root_GarbageCollect library (root (doc tombstones)) 10
  = ([live "b" (Counter 2) 2],
     Ok 1)
  /\ (exists cr, cloneRoot tombstones = Some cr
                 /\ @Root_GarbageCollect library cr 10 = ([], Ok 2))
  /\ exists d',
       GarbageCollect 10 tombstones = Next 1 d'
       /\ root (doc d')
          = [live "b" (Counter 2) 2]
       /\ cloneRoot d' = Some [].
Proof.
  split; [reflexivity|]. split; [eexists; split; reflexivity|].
  eexists. split.
  - apply (@GarbageCollect_returns_authoritative_count library 10 tombstones
             [live "b" (Counter 2) 2] 1 eq_refl).
    intros cr [= <-]. reflexivity.
  - split; reflexivity.
Defined.

End Runs.

(** * Further properties *)

(** ** The change message and the configuration *)

(** X1. [messageFromMsgAndArgs] panics exactly when it is given two or
    more arguments of which the first is not a string; with no argument or
    a single one it always returns a message. *)
Theorem messageFromMsgAndArgs_panics_iff (msgAndArgs : list iface) :
  (exists reason, messageFromMsgAndArgs msgAndArgs = Panicked reason) <->
  (2 <= length msgAndArgs)%nat
  /\ forall s, head msgAndArgs <> Some (IString s).
Proof.
  destruct msgAndArgs as [|first [|second rest]]; cbn.
  - split; [intros [? [=]] | intros [? _]; lia].
  - split; [destruct first; intros [? [=]] | intros [? _]; lia].
  - destruct first; split;
      try (intros [? [=]]; fail);
      try (intros _; split; [lia | intros ? [=]]; fail);
      try (intros _; eexists; reflexivity).
    intros [_ H]. by destruct (H s).
Qed.

(** X2. [Validate] returns nil exactly when the three accessors of the
    webhook durations return instead of panicking, whatever the parser. *)
Theorem Validate_nil_iff_accessors_return
    (parse : string -> result Z) (c : Backend.Config) :
  Backend.Validate parse c = None <->
  exists wait auth unauth : Z,
    Backend.ParseAuthWebhookMaxWaitInterval parse c = Value wait
    /\ Backend.ParseAuthWebhookCacheAuthTTL parse c = Value auth
    /\ Backend.ParseAuthWebhookCacheUnauthTTL parse c = Value unauth.
Proof.
  rewrite Validate_nil_iff.
  unfold Backend.ParseAuthWebhookMaxWaitInterval,
    Backend.ParseAuthWebhookCacheAuthTTL,
    Backend.ParseAuthWebhookCacheUnauthTTL, Backend.parseOrPanic.
  destruct (parse (Backend.AuthWebhookMaxWaitInterval c)) as [w|e1];
    destruct (parse (Backend.AuthWebhookCacheAuthTTL c)) as [a|e2];
    destruct (parse (Backend.AuthWebhookCacheUnauthTTL c)) as [u|e3]; cbn;
    split;
    try (intros (? & ? & ?); discriminate);
    try (intros (? & ? & ? & ? & ? & ?); discriminate).
  - intros _. by exists w, a, u.
  - done.
Qed.

(** X3. When [Validate] fails, its error wraps the parse error of the
    first webhook duration that does not parse, in the order max wait
    interval, authorized TTL, unauthorized TTL; the later fields play no
    part. *)
Theorem Validate_reports_first_failure
    (parse : string -> result Z) (c : Backend.Config) (err : Error) :
  Backend.Validate parse c = Some err ->
  exists value flag cause,
    err = Backend.invalidArgument value flag cause
    /\ parse value = Fail cause
    /\ ((value = Backend.AuthWebhookMaxWaitInterval c
         /\ flag = "--auth-webhook-max-wait-interval")
        \/ (is_Ok (parse (Backend.AuthWebhookMaxWaitInterval c)) = true
            /\ value = Backend.AuthWebhookCacheAuthTTL c
            /\ flag = "--auth-webhook-cache-auth-ttl")
        \/ (is_Ok (parse (Backend.AuthWebhookMaxWaitInterval c)) = true
            /\ is_Ok (parse (Backend.AuthWebhookCacheAuthTTL c)) = true
            /\ value = Backend.AuthWebhookCacheUnauthTTL c
            /\ flag = "--auth-webhook-cache-unauth-ttl")).
Proof.
  unfold Backend.Validate.
  destruct (parse (Backend.AuthWebhookMaxWaitInterval c)) as [w|e1] eqn:H1.
  - destruct (parse (Backend.AuthWebhookCacheAuthTTL c)) as [a|e2] eqn:H2.
    + destruct (parse (Backend.AuthWebhookCacheUnauthTTL c)) as [u|e3] eqn:H3;
        [done|].
      intros [= <-]. eexists _, _, _. split; [reflexivity|]. split; [exact H3|].
      right. right. done.
    + intros [= <-]. eexists _, _, _. split; [reflexivity|]. split; [exact H2|].
      right. left. done.
  - intros [= <-]. eexists _, _, _. split; [reflexivity|]. split; [exact H1|].
    left. done.
Qed.

Lemma Validate_reports_first_failure_witness :
  exists err,
    Backend.Validate GoTime.ParseDuration Cases.unitless = Some err
    /\ exists value flag cause,
         err = Backend.invalidArgument value flag cause
         /\ GoTime.ParseDuration value = Fail cause.
Proof.
  assert (H : Backend.Validate GoTime.ParseDuration Cases.unitless
              = Some (Backend.invalidArgument "10" "--auth-webhook-cache-auth-ttl"
                        (ErrorString ("time: missing unit in duration "
                                      +:+ GoTime.quote "10"))))
    by (vm_compute; reflexivity).
  eexists. split; [exact H|].
  destruct (Validate_reports_first_failure GoTime.ParseDuration _ _ H)
    as (value & flag & cause & Herr & Hparse & _).
  exists value, flag, cause. split; [exact Herr | exact Hparse].
Defined.

(** ** More on the facade, for every element library *)

Section FacadeMore.

Context `{Lib : ElementLibrary}.

Lemma ensureClone_keeps_clone (d : Document) :
  cloneRoot d <> None -> clonePresences d <> None -> ensureClone d = Next tt d.
Proof.
  intros Hcr Hcp. unfold ensureClone.
  destruct (cloneRoot d) as [cr|]; [|done].
  by destruct (clonePresences d).
Qed.

(** X4. [ensureClone] is idempotent: once it has succeeded, calling it
    again copies nothing and leaves the facade as it is. *)
Theorem ensureClone_idempotent (d d1 : Document) :
  ensureClone d = Next tt d1 -> ensureClone d1 = Next tt d1.
Proof.
  intros Hrun. pose proof (ensureClone_inv d) as Hinv. rewrite Hrun in Hinv.
  destruct Hinv as (_ & _ & Hcr & Hcp). by apply ensureClone_keeps_clone.
Qed.

Lemma Update_gate (updater : Updater) (msgAndArgs : list iface) (d : Document) :
  status (doc d) = StatusRemoved ->
  Update updater msgAndArgs d = Raise ErrDocumentRemoved d.
Proof. intros Hst. unfold Update, bind, prepareUpdate. by rewrite Hst. Qed.

(** X5. When there is no clone and the authoritative root cannot be
    copied, every entry point that needs the clone gives up with the copy
    error and leaves the facade exactly as it was: [Update] returns the
    error without running the updater, [ApplyChangePack] without snapshot
    returns it without executing a change, and [Root] panics with it. *)
Theorem clone_failure_stops_callers (d : Document) (e : Error) :
  cloneRoot d = None ->
  Root_DeepCopy (root (doc d)) = Fail e ->
  status (doc d) <> StatusRemoved ->
  (forall (updater : Updater) (msgAndArgs : list iface),
      Update updater msgAndArgs d = Raise e d)
  /\ (forall pack : Pack,
         length (pack_Snapshot pack) = 0%nat ->
         ApplyChangePack pack d = Raise e d)
  /\ Document_Root d = Panic e d.
Proof.
  intros Hcr Hcopy Hst.
  assert (Hclone : ensureClone d = Raise e d).
  { unfold ensureClone. by rewrite Hcr, Hcopy. }
  split_and!.
  - intros updater msgAndArgs. unfold Update, bind, prepareUpdate.
    destruct (status (doc d)); try done; cbn; unfold bind; by rewrite Hclone.
  - intros pack Hlen. unfold ApplyChangePack, applyRemoteChanges, bind.
    rewrite Hlen. change (0 <? 0)%nat with false. cbv beta iota.
    by rewrite Hclone.
  - unfold Document_Root. by rewrite Hclone.
Qed.

(** X6. A successful [Update] never touches key, status or checkpoint.
    Either it leaves the authoritative replica as it was, or it appends
    exactly one change at the end of the pending changes and makes the ID
    of that change the change ID of the replica. *)
Theorem Update_appends_at_most_one
    (updater : Updater) (msgAndArgs : list iface) (d d' : Document) :
  Update updater msgAndArgs d = Next tt d' ->
  key (doc d') = key (doc d) /\ status (doc d') = status (doc d)
  /\ checkpoint (doc d') = checkpoint (doc d)
  /\ (doc d' = doc d
      \/ exists c,
           localChanges (doc d') = localChanges (doc d) ++ [c]
           /\ changeID (doc d') = change_ID c
           /\ HasLocalChanges d' = true).
Proof.
  unfold Update, bind. intros Hrun.
  pose proof (prepareUpdate_inv msgAndArgs d) as Hinv.
  destruct (prepareUpdate msgAndArgs d) as [[[ctx cr] cp] d1|err d1|err d1|d1];
    try done.
  destruct Hinv as (Hdoc & _).
  destruct (updater ctx cr cp) as [[[ctx' cr'] cp'] [err|]]; [done|].
  cbn in Hrun. destruct (Context_HasChange ctx').
  - destruct (Change_Execute _ _ _) as [[r p] [err|]]; [done|].
    injection Hrun as <-. cbn. rewrite Hdoc. split_and!; try done.
    right. exists (Context_ToChange ctx'). split_and!; try done.
    unfold HasLocalChanges, InternalDocument_HasLocalChanges. cbn.
    rewrite length_app. cbn. by rewrite Nat.add_1_r.
  - injection Hrun as <-. cbn. rewrite Hdoc. split_and!; try done. by left.
Qed.

(** X7. When the message arguments make [messageFromMsgAndArgs] panic,
    [Update] panics for every updater, after the status gate and after
    the clone was made: the updater is not run and the authoritative
    replica is untouched. *)
Theorem Update_panics_on_bad_arguments
    (msgAndArgs : list iface) (d d1 : Document) (reason : string) :
  status (doc d) <> StatusRemoved ->
  ensureClone d = Next tt d1 ->
  messageFromMsgAndArgs msgAndArgs = Panicked reason ->
  (forall updater : Updater,
      Update updater msgAndArgs d = Panic (ErrorString reason) d1)
  /\ doc d1 = doc d.
Proof.
  intros Hst Hclone Hmsg. split.
  - intros updater. unfold Update, bind, prepareUpdate.
    destruct (status (doc d)); try done; cbn; unfold bind;
      rewrite Hclone; unfold Update_message; by rewrite Hmsg.
  - pose proof (ensureClone_inv d) as Hinv. rewrite Hclone in Hinv. tauto.
Qed.

(** X8. A clone dropped after an updater error is rebuilt from the
    authoritative replica: the next [Update] hands its updater a copy of
    the authoritative root and the authoritative presences (with room
    made for the actor), and a context numbered as the failed one was. *)
Theorem Update_rebuilds_dropped_clone
    (updater : Updater) (msgAndArgs next : list iface) (d d1 : Document)
    (ctx ctx' : Context) (cr cr' copy : Root) (cp cp' : PresenceMap)
    (e : Error) (message : string) :
  prepareUpdate msgAndArgs d = Next (ctx, cr, cp) d1 ->
  updater ctx cr cp = (ctx', cr', cp', Some e) ->
  Root_DeepCopy (root (doc d)) = Ok copy ->
  messageFromMsgAndArgs next = Value message ->
  exists d2,
    prepareUpdate next (final (Update updater msgAndArgs d))
    = Next (NewContext (ChangeID.Next (changeID (doc d))) message,
            copy,
            (LoadOrStore (presences (doc d)) (ActorID d) NewPresence).2) d2
    /\ doc d2 = doc d.
Proof.
  intros Hprep Hu Hcopy Hmsg.
  pose proof (prepareUpdate_inv msgAndArgs d) as Hinv. rewrite Hprep in Hinv.
  destruct Hinv as (Hdoc & _ & _ & _ & Hst).
  unfold Update at 1, bind. rewrite Hprep, Hu. cbn.
  unfold prepareUpdate. cbn. rewrite Hdoc.
  destruct (status (doc d)); try done; cbn;
    unfold bind, ensureClone; cbn; rewrite Hdoc, Hcopy; cbn;
    unfold Update_message; rewrite Hmsg; cbn; unfold ActorID; cbn;
    rewrite Hdoc; eexists; (split; [reflexivity|]); cbn; done.
Qed.

(** X9. [GarbageCollect] returns a count or panics; it never returns an
    error and never waits. It panics exactly when the collection of the
    clone root or of the authoritative root fails, and when the clone's
    fails the authoritative replica is not touched. *)
Theorem GarbageCollect_panics_iff (ticket : Ticket) (d : Document) :
  ((exists e d1, GarbageCollect ticket d = Panic e d1) <->
   (exists cr, cloneRoot d = Some cr
               /\ is_Ok (Root_GarbageCollect cr ticket).2 = false)
   \/ is_Ok (Root_GarbageCollect (root (doc d)) ticket).2 = false)
  /\ (forall cr, cloneRoot d = Some cr ->
                 is_Ok (Root_GarbageCollect cr ticket).2 = false ->
                 doc (final (GarbageCollect ticket d)) = doc d)
  /\ (forall e d1, GarbageCollect ticket d <> Raise e d1)
  /\ (forall d1, GarbageCollect ticket d <> Blocked d1).
Proof.
  unfold GarbageCollect, InternalDocument_GarbageCollect.
  destruct (cloneRoot d) as [cr|] eqn:Hcr.
  - destruct (Root_GarbageCollect cr ticket) as [cr' [k|err]] eqn:Hc; cbn.
    + destruct (Root_GarbageCollect (root (doc d)) ticket) as [r [n|err]]; cbn;
        split_and!; try done.
      * split; [intros (? & ? & [=])|]. intros [(? & [= <-] & H)|H]; try done.
        rewrite Hc in H. done.
      * intros ? [= <-]. by rewrite Hc.
      * split; [by right|]. intros _. by eexists _, _.
      * intros ? [= <-]. by rewrite Hc.
    + split_and!; try done.
      split; [|intros _; by eexists _, _].
      intros _. left. exists cr. by rewrite Hc.
  - cbn. destruct (Root_GarbageCollect (root (doc d)) ticket) as [r [n|err]]; cbn;
      split_and!; try done.
    + split; [intros (? & ? & [=])|]. by intros [(? & [=] & _)|].
    + split; [by right|]. intros _. by eexists _, _.
Qed.

End FacadeMore.

Section PackMore.

Context `{Lib : ElementLibrary}.

(** The loop of sends completes when the events fit into the channel and
    waits at the first one that does not. *)
Lemma sendAll_room (evs : list DocEvent) (d : Document) :
  (length (events d) <= 1)%nat ->
  if (length (events d) + length evs <=? 1)%nat
  then sendAll evs d = Next tt (set_events (events d ++ evs) d)
  else exists d1, sendAll evs d = Blocked d1
                  /\ doc d1 = doc d /\ cloneRoot d1 = cloneRoot d
                  /\ clonePresences d1 = clonePresences d.
Proof.
  revert d. induction evs as [|e rest IH]; intros d Hcap.
  - rewrite Nat.add_0_r. apply Nat.leb_le in Hcap. rewrite Hcap. cbn.
    rewrite app_nil_r. by destruct d.
  - cbn [sendAll]. unfold bind, send.
    destruct (events d) as [|e0 evs0] eqn:Hev.
    + cbn [length Nat.ltb Nat.leb].
      specialize (IH (set_events ([] ++ [e]) d)). cbn in IH.
      specialize (IH (le_n 1)).
      destruct rest as [|e' rest']; cbn in IH |- *.
      * rewrite IH. unfold set_events. cbn. done.
      * destruct IH as (d1 & -> & ? & ? & ?). by exists d1.
    + cbn in Hcap. assert (evs0 = []) as -> by (destruct evs0; [done | cbn in Hcap; lia]).
      cbn. exists d. done.
Qed.

Lemma sendAll_events (evs : list DocEvent) (d d' : Document) :
  sendAll evs d = Next tt d' -> events d' = events d ++ evs.
Proof.
  revert d. induction evs as [|e rest IH]; intros d Hrun.
  - cbn in Hrun. injection Hrun as <-. by rewrite app_nil_r.
  - cbn in Hrun. unfold bind, send in Hrun.
    destruct (length (events d) <? 1)%nat; [|done].
    apply IH in Hrun. rewrite Hrun. cbn. by rewrite <- app_assoc.
Qed.

(** Running steps 02 to 05 to completion leaves the channel and the clone
    presences alone. *)
Lemma afterRemoteChanges_events (pack : Pack) (d d' : Document) :
  afterRemoteChanges pack d = Next tt d' -> events d' = events d.
Proof.
  unfold afterRemoteChanges, bind, modify. intros Hrun.
  match type of Hrun with
  | context [GarbageCollect ?t ?x] =>
      pose proof (GarbageCollect_frame t x) as Hgc;
      destruct (GarbageCollect t x) as [n d1|err d1|err d1|d1]; try done
  end.
  destruct Hgc as (_ & _ & _ & _ & _ & _ & _ & Hev & _).
  destruct (pack_IsRemoved pack); cbn in Hrun; injection Hrun as <-; cbn; by rewrite Hev.
Qed.

(** What step 01 does without a snapshot, once the clone exists and the
    changes run on it. *)
Lemma applyRemoteChanges_replay (pack : Pack) (d d1 d2 : Document) :
  length (pack_Snapshot pack) = 0%nat ->
  ensureClone d = Next tt d1 ->
  executeOnClone (pack_Changes pack) d1 = Next tt d2 ->
  applyRemoteChanges pack d
  = match InternalDocument_ApplyChanges (pack_Changes pack) (doc d) with
    | (i, Fail err) => Raise err (set_doc i d2)
    | (i, Ok evs) => sendAll evs (set_doc i d2)
    end
  /\ doc d2 = doc d /\ events d2 = events d.
Proof.
  intros Hlen Hclone Hexec.
  pose proof (ensureClone_inv d) as H1. rewrite Hclone in H1.
  pose proof (executeOnClone_inv (pack_Changes pack) d1) as H2.
  rewrite Hexec in H2. destruct H1 as (Hd1 & He1 & _), H2 as (Hd2 & He2).
  split; [|split; congruence].
  unfold applyRemoteChanges, bind. rewrite Hlen.
  change (0 <? 0)%nat with false. cbv beta iota.
  rewrite Hclone. cbv beta iota. rewrite Hexec. cbv beta iota.
  rewrite Hd2, Hd1.
  by destruct (InternalDocument_ApplyChanges (pack_Changes pack) (doc d))
    as [i [evs|err]].
Qed.

(** X10. When [ApplyChangePack] without snapshot returns nil, the channel
    holds what it held before followed by the events that applying the
    changes to the authoritative replica produced, in their order. *)
Theorem ApplyChangePack_publishes_events
    (pack : Pack) (d d' : Document) (i : InternalDocument) (evs : list DocEvent) :
  length (pack_Snapshot pack) = 0%nat ->
  InternalDocument_ApplyChanges (pack_Changes pack) (doc d) = (i, Ok evs) ->
  ApplyChangePack pack d = Next tt d' ->
  events d' = events d ++ evs.
Proof.
  intros Hlen Happly Hrun. unfold ApplyChangePack, bind in Hrun.
  destruct (applyRemoteChanges pack d) as [[] d3|?|?|?] eqn:Hstep; try done.
  rewrite (afterRemoteChanges_events pack d3 d' Hrun). clear Hrun.
  unfold applyRemoteChanges, bind in Hstep. rewrite Hlen in Hstep.
  change (0 <? 0)%nat with false in Hstep. cbv beta iota in Hstep.
  pose proof (ensureClone_inv d) as H1.
  destruct (ensureClone d) as [[] d1|?|?|?]; try done.
  pose proof (executeOnClone_inv (pack_Changes pack) d1) as H2.
  destruct (executeOnClone (pack_Changes pack) d1) as [[] d2|?|?|?]; try done.
  destruct H1 as (Hd1 & He1 & _), H2 as (Hd2 & He2).
  rewrite Hd2, Hd1, Happly in Hstep.
  apply sendAll_events in Hstep. rewrite Hstep. cbn. congruence.
Qed.

(** X11. When applying the changes of a pack produces more events than
    the channel of capacity 1 has room for, [ApplyChangePack] does not
    return: it waits in a send, with the changes already executed on the
    clone and on the authoritative replica but the pending changes not yet
    pruned and the checkpoint not yet forwarded. *)
Theorem ApplyChangePack_waits_on_full_channel
    (pack : Pack) (d d1 d2 : Document) (i : InternalDocument)
    (evs : list DocEvent) :
  length (pack_Snapshot pack) = 0%nat ->
  ensureClone d = Next tt d1 ->
  executeOnClone (pack_Changes pack) d1 = Next tt d2 ->
  InternalDocument_ApplyChanges (pack_Changes pack) (doc d) = (i, Ok evs) ->
  (length (events d) <= 1 < length (events d) + length evs)%nat ->
  exists d3,
    ApplyChangePack pack d = Blocked d3
    /\ doc d3 = i
    /\ cloneRoot d3 = cloneRoot d2
    /\ localChanges (doc d3) = localChanges (doc d)
    /\ checkpoint (doc d3) = checkpoint (doc d).
Proof.
  intros Hlen Hclone Hexec Happly [Hcap Hroom].
  destruct (applyRemoteChanges_replay pack d d1 d2 Hlen Hclone Hexec)
    as (Hstep & Hd2 & He2).
  rewrite Happly in Hstep.
  pose proof (sendAll_room evs (set_doc i d2)) as Hsend.
  cbn [events set_doc] in Hsend. rewrite He2 in Hsend. specialize (Hsend Hcap).
  destruct (length (events d) + length evs <=? 1)%nat eqn:Hfit;
    [apply Nat.leb_le in Hfit; lia|].
  destruct Hsend as (d3 & Hblocked & Hdoc & Hcr & _).
  exists d3. unfold ApplyChangePack, bind. rewrite Hstep, Hblocked.
  pose proof (ApplyChanges_frame (pack_Changes pack) (doc d)) as Hfr.
  rewrite Happly in Hfr. cbn in Hfr, Hdoc, Hcr.
  destruct Hfr as (_ & _ & Hcp & Hl & _). rewrite Hdoc. done.
Qed.

(** X12. After [ApplyChangePack] returns nil the status is [Removed] when
    the pack says the document is removed, and what it was otherwise; in
    the first case every later [Update] is rejected with
    [ErrDocumentRemoved] and changes nothing. *)
Theorem ApplyChangePack_removal (pack : Pack) (d d' : Document) :
  ApplyChangePack pack d = Next tt d' ->
  Status d' = (if pack_IsRemoved pack then StatusRemoved else Status d)
  /\ (pack_IsRemoved pack = true ->
      forall (updater : Updater) (msgAndArgs : list iface),
        Update updater msgAndArgs d' = Raise ErrDocumentRemoved d').
Proof.
  unfold ApplyChangePack, bind. intros Hrun.
  pose proof (applyRemoteChanges_frame pack d) as Hfr.
  destruct (applyRemoteChanges pack d) as [[] d1|err d1|err d1|d1]; try done.
  cbn in Hfr. destruct Hfr as (_ & Hst & _).
  assert (Hstatus : Status d'
                    = if pack_IsRemoved pack then StatusRemoved else Status d).
  { unfold afterRemoteChanges, bind, modify in Hrun.
    match type of Hrun with
    | context [GarbageCollect ?t ?x] =>
        pose proof (GarbageCollect_frame t x) as Hgc;
        destruct (GarbageCollect t x) as [n d2|?|?|?]; try done
    end.
    destruct Hgc as (_ & Hs & _). cbn in Hs.
    unfold Status.
    destruct (pack_IsRemoved pack); cbn in Hrun; injection Hrun as <-; cbn;
      [done | congruence]. }
  split; [exact Hstatus|].
  intros Hrem updater msgAndArgs. apply Update_gate.
  rewrite Hrem in Hstatus. exact Hstatus.
Qed.

(** X13. A pack whose snapshot does not decode costs the facade its clone
    and nothing else: [ApplyChangePack] returns the decoding error, the
    authoritative replica and the channel are as before, no pending change
    is pruned and the checkpoint is not forwarded. *)
Theorem ApplyChangePack_undecodable_snapshot
    (pack : Pack) (d : Document) (e : Error) :
  (0 < length (pack_Snapshot pack))%nat ->
  BytesToSnapshot (pack_Snapshot pack) = Fail e ->
  ApplyChangePack pack d
  = Raise e {| doc := doc d; cloneRoot := None; clonePresences := None;
               events := events d |}.
Proof.
  intros Hlen Hdec. apply Nat.ltb_lt in Hlen.
  unfold ApplyChangePack, applyRemoteChanges. rewrite Hlen.
  unfold bind, modify, onDoc, InternalDocument_applySnapshot. cbn.
  by rewrite Hdec.
Qed.

(** X14. When the changes of a pack run on the clone but applying them to
    the authoritative replica fails, [ApplyChangePack] returns that error
    at once: the clone keeps the executed changes, nothing is published,
    no pending change is pruned, the checkpoint is not forwarded and the
    status is not changed. *)
Theorem ApplyChangePack_authoritative_failure
    (pack : Pack) (d d1 d2 : Document) (i : InternalDocument) (e : Error) :
  length (pack_Snapshot pack) = 0%nat ->
  ensureClone d = Next tt d1 ->
  executeOnClone (pack_Changes pack) d1 = Next tt d2 ->
  InternalDocument_ApplyChanges (pack_Changes pack) (doc d) = (i, Fail e) ->
  ApplyChangePack pack d
  = Raise e {| doc := i; cloneRoot := cloneRoot d2;
               clonePresences := clonePresences d2; events := events d |}
  /\ localChanges i = localChanges (doc d)
  /\ checkpoint i = checkpoint (doc d)
  /\ status i = status (doc d).
Proof.
  intros Hlen Hclone Hexec Happly.
  destruct (applyRemoteChanges_replay pack d d1 d2 Hlen Hclone Hexec)
    as (Hstep & _ & He2).
  rewrite Happly in Hstep.
  pose proof (ApplyChanges_frame (pack_Changes pack) (doc d)) as Hfr.
  rewrite Happly in Hfr. cbn in Hfr. destruct Hfr as (_ & Hs & Hcp & Hl & _).
  split_and!; try done.
  unfold ApplyChangePack, bind. rewrite Hstep. unfold set_doc. by rewrite He2.
Qed.

(** Once the head is above the checkpoint nothing is dropped, and a
    checkpoint at or above the last client sequence drops everything. *)
Lemma removeApplied_all (clientSeq : Z) (l : list Change) (x : Z) :
  ascending (map Change_ClientSeq l ++ [x]) = true ->
  x <= clientSeq ->
  removeApplied clientSeq l = [].
Proof.
  induction l as [|c rest IH]; [done|]. intros Hasc Hx.
  cbn [removeApplied].
  assert (Hc : Change_ClientSeq c <= x).
  { clear IH. revert c Hasc. induction rest as [|c' rest' IH']; intros c Hasc.
    - cbn in Hasc. apply andb_prop in Hasc as [? _]. lia.
    - cbn in Hasc. apply andb_prop in Hasc as [? Hrest].
      specialize (IH' c' Hrest). lia. }
  assert (Hgt : (Change_ClientSeq c >? clientSeq) = false) by lia.
  rewrite Hgt. apply IH; [|done]. by apply (ascending_cons (Change_ClientSeq c)).
Qed.

(** X15. On a document whose pending changes are in order, a pack whose
    checkpoint acknowledges the client sequence of the replica's change ID
    leaves no pending change: [HasLocalChanges] is false afterwards. *)
Theorem ApplyChangePack_full_acknowledgement (pack : Pack) (d d' : Document) :
  ApplyChangePack pack d = Next tt d' ->
  pendingInOrder d = true ->
  ChangeID.clientSeq (changeID (doc d))
  <= Checkpoint.ClientSeq (pack_Checkpoint pack) ->
  localChanges (doc d') = [] /\ HasLocalChanges d' = false.
Proof.
  intros Hrun Hord Hack.
  assert (Hl : localChanges (doc d') = []).
  { rewrite (ApplyChangePack_localChanges pack d d' Hrun).
    by apply (removeApplied_all _ _ (ChangeID.clientSeq (changeID (doc d)))). }
  split; [exact Hl|].
  unfold HasLocalChanges, InternalDocument_HasLocalChanges. by rewrite Hl.
Qed.

(** X16. [Root] consults no status and touches neither the authoritative
    replica nor the channel. It returns the clone root under a context
    numbered after the replica's change ID, leaving both clone fields set,
    and a second call returns the same; it panics only when there is no
    clone and the authoritative root cannot be copied, with that error
    and the facade as it was. *)
Theorem Document_Root_outcome (d : Document) :
  match Document_Root d with
  | Next (ctx, cr) d1 =>
      doc d1 = doc d /\ events d1 = events d
      /\ cloneRoot d1 = Some cr /\ clonePresences d1 <> None
      /\ ctx = NewContext (ChangeID.Next (changeID (doc d))) EmptyString
      /\ Document_Root d1 = Next (ctx, cr) d1
  | Panic e d1 =>
      d1 = d /\ cloneRoot d = None /\ Root_DeepCopy (root (doc d)) = Fail e
  | Raise _ _ | Blocked _ => False
  end.
Proof.
  unfold Document_Root at 1.
  pose proof (ensureClone_inv d) as Hinv.
  destruct (ensureClone d) as [[] d1|err d1|err d1|d1] eqn:Hclone; try done.
  - destruct Hinv as (Hdoc & Hev & Hcr & Hcp).
    destruct (cloneRoot d1) as [cr|] eqn:Hr; [|done].
    split_and!; try done; [by rewrite Hdoc|].
    assert (ensureClone d1 = Next tt d1) as Hagain
      by (apply ensureClone_keeps_clone; congruence).
    unfold Document_Root. rewrite Hagain. by rewrite Hr, Hdoc.
  - subst d1. unfold ensureClone in Hclone.
    destruct (cloneRoot d) as [cr|]; [by destruct (clonePresences d)|].
    destruct (Root_DeepCopy (root (doc d))) as [copy|e]; [|by injection Hclone as ->].
    cbn in Hclone. by destruct (clonePresences d).
Qed.

End PackMore.

(** ** Further concrete runs *)

Section RunsMore.

Import Flat Scenario Cases.

Lemma ensureClone_idempotent_witness :
  ensureClone fresh = Next tt (final (ensureClone fresh))
  /\ ensureClone (final (ensureClone fresh)) = Next tt (final (ensureClone fresh)).
Proof.
  assert (H : ensureClone fresh = Next tt (final (ensureClone fresh)))
    by (vm_compute; reflexivity).
  split; [exact H|]. exact (ensureClone_idempotent fresh _ H).
Defined.

(** The authoritative root holds a field twice, so it cannot be copied. *)
Lemma clone_failure_stops_callers_witness :
  cloneRoot Checked.twice = None
  /\ @Root_DeepCopy Checked.library (root (doc Checked.twice))
     = Fail Checked.ErrDuplicateField
  /\ @Update Checked.library (fun ctx cr cp => (ctx, cr, cp, None)) [] Checked.twice
     = Raise Checked.ErrDuplicateField Checked.twice
  /\ @Document_Root Checked.library Checked.twice
     = Panic Checked.ErrDuplicateField Checked.twice.
Proof.
  destruct (@clone_failure_stops_callers Checked.library Checked.twice
              Checked.ErrDuplicateField eq_refl eq_refl)
    as (Hupdate & _ & Hroot); [discriminate|].
  split; [reflexivity|]. split; [reflexivity|].
  split; [apply Hupdate | exact Hroot].
Defined.

Lemma Update_appends_at_most_one_witness :
  Update insertX [] fresh = Next tt afterInsert
  /\ map Change_ClientSeq (localChanges (doc afterInsert)) = [1]
  /\ checkpoint (doc afterInsert) = checkpoint (doc fresh).
Proof.
  assert (H : Update insertX [] fresh = Next tt afterInsert)
    by (vm_compute; reflexivity).
  split; [exact H|]. split; [vm_compute; reflexivity|].
  destruct (Update_appends_at_most_one insertX [] fresh afterInsert H)
    as (_ & _ & Hcp & _).
  exact Hcp.
Defined.

Lemma Update_panics_on_bad_arguments_witness :
  status (doc fresh) <> StatusRemoved
  /\ messageFromMsgAndArgs badArguments
     = Panicked "interface conversion: interface {} is not string"
  /\ Update insertX badArguments fresh
     = Panic (ErrorString "interface conversion: interface {} is not string")
         (final (ensureClone fresh))
  /\ doc (final (ensureClone fresh)) = doc fresh.
Proof.
  assert (Hst : status (doc fresh) <> StatusRemoved) by discriminate.
  assert (Hclone : ensureClone fresh = Next tt (final (ensureClone fresh)))
    by (vm_compute; reflexivity).
  destruct (Update_panics_on_bad_arguments badArguments fresh _ _ Hst Hclone eq_refl)
    as (Hall & Hdoc).
  split; [exact Hst|]. split; [reflexivity|]. split; [apply Hall | exact Hdoc].
Defined.

(** After the failed update of scenario 2, the next update works on a
    copy of the authoritative root, which holds [x] only. *)
Lemma Update_rebuilds_dropped_clone_witness :
  exists d2,
    prepareUpdate [] (final (Update insertYThenBoom [] afterInsert))
    = Next (NewContext (ChangeID.Next (changeID (doc afterInsert))) EmptyString,
            [live "x" (Counter 1) 1],
            (LoadOrStore (presences (doc afterInsert)) "A" NewPresence).2) d2
    /\ doc d2 = doc afterInsert.
Proof.
  assert (Hprep : exists staged d1,
             prepareUpdate [] afterInsert = Next staged d1
             /\ exists ctx' cr' cp',
                  insertYThenBoom staged.1.1 staged.1.2 staged.2
                  = (ctx', cr', cp', Some boom)).
  { eexists. eexists. split; [vm_compute; reflexivity|].
    eexists. eexists. eexists. vm_compute. reflexivity. }
  destruct Hprep as ([[ctx cr] cp] & d1 & Hp & ctx' & cr' & cp' & Hu).
  exact (Update_rebuilds_dropped_clone insertYThenBoom [] [] afterInsert d1
           ctx ctx' cr cr' [live "x" (Counter 1) 1] cp cp' boom EmptyString
           Hp Hu eq_refl eq_refl).
Defined.

(** The clone holds a tombstone stamped at the creation of its node:
    collection of the clone fails and [GarbageCollect] panics. *)
Lemma GarbageCollect_panics_iff_witness :
  exists e d1,
    @GarbageCollect Checked.library 10 Checked.misplaced = Panic e d1.
Proof.
  apply (proj1 (@GarbageCollect_panics_iff Checked.library 10 Checked.misplaced)).
  left. eexists. split; reflexivity.
Defined.

Lemma ApplyChangePack_publishes_events_witness :
  exists d' i ev,
    InternalDocument_ApplyChanges (pack_Changes onePresence) (doc fresh)
    = (i, Ok [ev])
    /\ ApplyChangePack onePresence fresh = Next tt d'
    /\ events fresh = [] /\ events d' = [ev]
    /\ event_Type ev = PresenceChangedEvent.
Proof.
  eexists. eexists. eexists.
  assert (Happly : InternalDocument_ApplyChanges (pack_Changes onePresence) (doc fresh)
                   = ((InternalDocument_ApplyChanges (pack_Changes onePresence)
                         (doc fresh)).1,
                      Ok [{| event_Type := PresenceChangedEvent;
                             event_Presences := {["B" := {["cursor" := "1"]}]} |}]))
    by (vm_compute; reflexivity).
  assert (Hrun : ApplyChangePack onePresence fresh
                 = Next tt (final (ApplyChangePack onePresence fresh)))
    by (vm_compute; reflexivity).
  split; [exact Happly|]. split; [exact Hrun|]. split; [reflexivity|].
  split; [|reflexivity].
  exact (ApplyChangePack_publishes_events onePresence fresh _ _ _ eq_refl Happly Hrun).
Defined.

(** Two presence changes in one pack: the second event finds the channel
    full. *)
Lemma ApplyChangePack_waits_on_full_channel_witness :
  exists d3,
    ApplyChangePack twoPresences fresh = Blocked d3
    /\ length (events d3) = 1%nat
    /\ checkpoint (doc d3) = checkpoint (doc fresh).
Proof.
  assert (Hclone : ensureClone fresh = Next tt (final (ensureClone fresh)))
    by (vm_compute; reflexivity).
  assert (Hexec : executeOnClone (pack_Changes twoPresences) (final (ensureClone fresh))
                  = Next tt (final (executeOnClone (pack_Changes twoPresences)
                                      (final (ensureClone fresh)))))
    by (vm_compute; reflexivity).
  assert (Happly : exists i e1 e2,
             InternalDocument_ApplyChanges (pack_Changes twoPresences) (doc fresh)
             = (i, Ok [e1; e2]))
    by (eexists; eexists; eexists; vm_compute; reflexivity).
  destruct Happly as (i & e1 & e2 & Happly).
  destruct (ApplyChangePack_waits_on_full_channel twoPresences fresh _ _ i [e1; e2]
              eq_refl Hclone Hexec Happly)
    as (d3 & Hrun & _ & _ & _ & Hcp); [cbn; lia|].
  exists d3. split; [exact Hrun|]. split; [|exact Hcp].
  assert (Hd3 : Blocked d3 = ApplyChangePack twoPresences fresh :> step unit)
    by (symmetry; exact Hrun).
  apply (f_equal final) in Hd3. cbn [final] in Hd3. rewrite Hd3.
  vm_compute. reflexivity.
Defined.

Lemma ApplyChangePack_removal_witness :
  exists d',
    ApplyChangePack removal afterInsert = Next tt d'
    /\ Status d' = StatusRemoved
    /\ Update insertX [] d' = Raise ErrDocumentRemoved d'.
Proof.
  assert (Hrun : ApplyChangePack removal afterInsert
                 = Next tt (final (ApplyChangePack removal afterInsert)))
    by (vm_compute; reflexivity).
  destruct (ApplyChangePack_removal removal afterInsert _ Hrun) as (Hst & Hupd).
  eexists. split; [exact Hrun|]. split; [exact Hst | by apply Hupd].
Defined.

Lemma ApplyChangePack_undecodable_snapshot_witness :
  (0 < length (pack_Snapshot truncated))%nat
  /\ ApplyChangePack truncated afterInsert
     = Raise (ErrorString "unexpected end of snapshot")
         {| doc := doc afterInsert; cloneRoot := None; clonePresences := None;
            events := events afterInsert |}.
Proof.
  assert (Hlen : (0 < length (pack_Snapshot truncated))%nat) by (cbn; lia).
  split; [exact Hlen|].
  exact (ApplyChangePack_undecodable_snapshot truncated afterInsert _ Hlen eq_refl).
Defined.

(** The clone holds [w] as a counter, the authoritative root as a string:
    the increase runs on the clone and fails on the authoritative root. *)
Lemma ApplyChangePack_authoritative_failure_witness :
  exists d',
    ApplyChangePack increaseW split = Raise ErrNotApplicableDataType d'
    /\ cloneRoot d' = Some [live "w" (Counter 1) 2]
    /\ root (doc d') = [live "w" (Text "b") 2]
    /\ checkpoint (doc d') = checkpoint (doc split).
Proof.
  assert (Hclone : ensureClone split = Next tt split) by (vm_compute; reflexivity).
  assert (Hexec : executeOnClone (pack_Changes increaseW) split
                  = Next tt (final (executeOnClone (pack_Changes increaseW) split)))
    by (vm_compute; reflexivity).
  destruct (ApplyChangePack_authoritative_failure increaseW split split _
              (doc split) ErrNotApplicableDataType eq_refl Hclone Hexec eq_refl)
    as (Hrun & _ & _ & _).
  eexists. split; [exact Hrun|]. split; [reflexivity|]. split; reflexivity.
Defined.

Lemma ApplyChangePack_full_acknowledgement_witness :
  map Change_ClientSeq (localChanges (doc threePending)) = [1; 2; 3]
  /\ exists d',
       ApplyChangePack ackThree threePending = Next tt d'
       /\ localChanges (doc d') = [] /\ HasLocalChanges d' = false.
Proof.
  split; [vm_compute; reflexivity|].
  assert (Hrun : ApplyChangePack ackThree threePending
                 = Next tt (final (ApplyChangePack ackThree threePending)))
    by (vm_compute; reflexivity).
  eexists. split; [exact Hrun|].
  apply (ApplyChangePack_full_acknowledgement ackThree threePending _ Hrun);
    vm_compute; [reflexivity | discriminate].
Defined.

End RunsMore.

(** ** The earlier facade *)

Section LegacyMore.

Import LegacyFacade.

Context `{Lib : LegacyLibrary}.

(** X17. The earlier [Update] has no status gate. When the updater
    returns an error, the call returns that error, writes it once to the
    error log, sets the clone to nil and leaves the authoritative replica
    as it was. The updater is given a copy of the authoritative root (or
    the clone already there) and a context whose message is the printed
    argument slice. *)
Theorem Legacy_Update_updater_error
    (updater : Updater) (msgAndArgs : list iface) (w : World)
    (ctx' : Context) (cl' : LRoot) (e : Error) :
  updater
    (NewContext (ChangeID.Next (changeID (doc (facade w))))
       (Sprintf "%+v" [ISlice msgAndArgs]))
    (ensureClone (facade w)).2
  = (ctx', cl', Some e) ->
  Update updater msgAndArgs w
  = Returned (Some e)
      {| facade := {| doc := doc (facade w); clone := None |};
         errorLog := errorLog w ++ [e] |}.
Proof.
  intros Hu. unfold Update.
  destruct (ensureClone (facade w)) as [d cl] eqn:Hclone.
  assert (Hdoc : doc d = doc (facade w)).
  { unfold ensureClone in Hclone.
    destruct (clone (facade w)); injection Hclone as <- _; done. }
  rewrite legacy_message_is_formatted_slice. cbn in Hu |- *.
  rewrite Hdoc, Hu. unfold set_clone. by rewrite Hdoc.
Qed.

(** X18. The earlier [Update] never panics, whatever the message
    arguments. It never touches key, status or checkpoint; when it returns
    nil the error log is as before and either the authoritative replica is
    unchanged or exactly one change was appended to the pending changes,
    whose ID became the change ID of the replica. *)
Theorem Legacy_Update_outcome
    (updater : Updater) (msgAndArgs : list iface) (w : World) :
  exists err w',
    Update updater msgAndArgs w = Returned err w'
    /\ key (doc (facade w')) = key (doc (facade w))
    /\ status (doc (facade w')) = status (doc (facade w))
    /\ checkpoint (doc (facade w')) = checkpoint (doc (facade w))
    /\ (err = None ->
        errorLog w' = errorLog w
        /\ (doc (facade w') = doc (facade w)
            \/ exists c,
                 localChanges (doc (facade w'))
                 = localChanges (doc (facade w)) ++ [c]
                 /\ changeID (doc (facade w')) = change_ID c)).
Proof.
  unfold Update.
  destruct (ensureClone (facade w)) as [d cl] eqn:Hclone.
  assert (Hdoc : doc d = doc (facade w)).
  { unfold ensureClone in Hclone.
    destruct (clone (facade w)); injection Hclone as <- _; done. }
  rewrite legacy_message_is_formatted_slice. cbn. unfold Change_Execute.
  destruct (updater _ cl) as [[ctx' cl'] [err|]].
  - eexists _, _. split; [reflexivity|]. cbn. rewrite Hdoc. split_and!; done.
  - destruct (Context_HasOperations ctx').
    + match goal with
      | |- context [executeOperations ?o ?r0] =>
          destruct (executeOperations o r0) as [r [err|]]
      end;
        eexists _, _; (split; [reflexivity|]); cbn; rewrite Hdoc;
        split_and!; try done.
      intros _. split; [done|]. right. by exists (Context_ToChange ctx').
    + eexists _, _. split; [reflexivity|]. cbn. rewrite Hdoc.
      split_and!; try done. intros _. split; [done|]. by left.
Qed.

Lemma legacy_applyChanges_frame (changes : list Change) (i : InternalDocument) :
  localChanges (InternalDocument_applyChanges changes i).1 = localChanges i.
Proof.
  revert i. induction changes as [|c rest IH]; intros i; cbn; [done|].
  destruct (Change_Execute c (root i)) as [r [err|]]; [done|].
  by rewrite IH.
Qed.

Lemma legacy_removeApplied_filter (clientSeq : Z) (l : list Change) :
  ascending (map Change_ClientSeq l) = true ->
  removeApplied clientSeq l
  = List.filter (fun c => clientSeq <? Change_ClientSeq c) l.
Proof.
  induction l as [|c rest IH]; [done|]. intros Hasc.
  pose proof (ascending_cons _ _ Hasc) as Hrest.
  cbn [removeApplied List.filter].
  destruct (Change_ClientSeq c >? clientSeq) eqn:Hgt.
  - assert (Hlt : (clientSeq <? Change_ClientSeq c) = true) by lia.
    rewrite Hlt. f_equal.
    clear IH Hrest. revert c Hasc Hgt Hlt.
    induction rest as [|c' rest' IH']; intros c Hasc Hgt Hlt; [done|].
    cbn [List.filter].
    assert (Hc' : Change_ClientSeq c <= Change_ClientSeq c').
    { cbn in Hasc. apply andb_prop in Hasc as [? _]. lia. }
    assert (Hlt' : (clientSeq <? Change_ClientSeq c') = true) by lia.
    rewrite Hlt'. f_equal. apply (IH' c'); try lia.
    cbn in Hasc. by apply andb_prop in Hasc as [_ ?].
  - assert (Hlt : (clientSeq <? Change_ClientSeq c) = false) by lia.
    rewrite Hlt. by apply IH.
Qed.

(** X19. After the earlier [ApplyChangePack] returns nil on a document
    whose pending changes are in ascending order of client sequence, the
    pending changes are exactly those whose client sequence is strictly
    greater than the client sequence of the pack's checkpoint, in their
    original order. *)
Theorem Legacy_ApplyChangePack_prunes_acknowledged
    (pack : Pack) (d d' : Document) :
  ApplyChangePack pack d = (d', None) ->
  ascending (map Change_ClientSeq (localChanges (doc d))) = true ->
  localChanges (doc d')
  = List.filter
      (fun c => Checkpoint.ClientSeq (pack_Checkpoint pack) <? Change_ClientSeq c)
      (localChanges (doc d)).
Proof.
  intros Hrun Hasc. rewrite <- (legacy_removeApplied_filter _ _ Hasc).
  assert (Hafter : forall d0,
             localChanges (doc (afterRemoteChanges pack d0))
             = removeApplied (Checkpoint.ClientSeq (pack_Checkpoint pack))
                 (localChanges (doc d0))).
  { intros d0. unfold afterRemoteChanges, GarbageCollect,
      InternalDocument_GarbageCollect.
    destruct (clone _); cbn; by destruct (LRoot_GarbageCollect _ _). }
  unfold ApplyChangePack in Hrun.
  destruct (0 <? length (pack_Snapshot pack))%nat.
  - unfold InternalDocument_applySnapshot in Hrun. cbn in Hrun.
    destruct (LBytesToObject (pack_Snapshot pack)) as [r|err]; [|done].
    injection Hrun as <-. by rewrite Hafter.
  - destruct (ensureClone d) as [d1 cl] eqn:Hclone.
    assert (Hdoc : doc d1 = doc d).
    { unfold ensureClone in Hclone.
      destruct (clone d); injection Hclone as <- _; done. }
    destruct (executeOnClone (pack_Changes pack) cl) as [cl' [err|]]; [done|].
    cbn in Hrun.
    pose proof (legacy_applyChanges_frame (pack_Changes pack) (doc d1)) as Hfr.
    destruct (InternalDocument_applyChanges (pack_Changes pack) (doc d1))
      as [i [err|]]; [done|].
    injection Hrun as <-. rewrite Hafter. cbn in Hfr |- *. by rewrite Hfr, Hdoc.
Qed.

End LegacyMore.

Section LegacyRuns.

Import Flat LegacyFacade LegacyCases.

(** On a removed replica the updater still runs; its error is logged and
    returned, and the replica keeps its single field. *)
Lemma Legacy_Update_updater_error_witness :
  status (doc (facade removedWorld)) = StatusRemoved
  /\ Update (thenFail (record (Set_ "y" (Counter 2) 2)) Scenario.boom) [] removedWorld
     = Returned (Some Scenario.boom)
         {| facade := {| doc := doc (facade removedWorld); clone := None |};
            errorLog := [Scenario.boom] |}.
Proof.
  split; [reflexivity|].
  eapply (Legacy_Update_updater_error
            (thenFail (record (Set_ "y" (Counter 2) 2)) Scenario.boom) []
            removedWorld).
  vm_compute. reflexivity.
Defined.

Lemma Legacy_ApplyChangePack_prunes_acknowledged_witness :
  map Change_ClientSeq (localChanges (doc threePending)) = [1; 2; 3]
  /\ map Change_ClientSeq
       (localChanges (doc (ApplyChangePack ackTwo threePending).1)) = [3].
Proof.
  split; [vm_compute; reflexivity|].
  assert (Hrun : ApplyChangePack ackTwo threePending
                 = ((ApplyChangePack ackTwo threePending).1, None))
    by (vm_compute; reflexivity).
  rewrite (Legacy_ApplyChangePack_prunes_acknowledged ackTwo threePending _ Hrun);
    vm_compute; reflexivity.
Defined.

End LegacyRuns.

(** ** The order of the pending changes, however a call ends *)

Section OrderMore.

Context `{Lib : ElementLibrary}.

(** X20. [Update] keeps the pending changes in ascending order of client
    sequence and behind the change ID of the replica, whichever way it
    ends, as long as the client sequence does not wrap around and the
    updater leaves the ID of its context alone. *)
Theorem Update_keeps_pending_order
    (updater : Updater) (msgAndArgs : list iface) (d : Document) :
  pendingInOrder d = true ->
  0 <= ChangeID.clientSeq (changeID (doc d)) < 2 ^ 32 - 1 ->
  (forall ctx cr cp, ctx_id (updater ctx cr cp).1.1.1 = ctx_id ctx) ->
  pendingInOrder (final (Update updater msgAndArgs d)) = true.
Proof.
  intros Hord Hrange Hid.
  destruct (Update updater msgAndArgs d) as [[] d'|e d'|e d'|d'] eqn:Hrun; cbn.
  - by apply (Update_keeps_order updater msgAndArgs d d').
  - unfold pendingInOrder in *.
    unfold Update, bind in Hrun.
    pose proof (prepareUpdate_inv msgAndArgs d) as Hinv.
    destruct (prepareUpdate msgAndArgs d) as [[[ctx cr] cp] d1|?|?|?]; try done.
    + destruct Hinv as (Hdoc & _).
      destruct (updater ctx cr cp) as [[[ctx' cr'] cp'] [err|]].
      * injection Hrun as _ <-. cbn. by rewrite Hdoc.
      * cbn in Hrun. destruct (Context_HasChange ctx'); [|done].
        destruct (Change_Execute _ _ _) as [[r p] [err|]]; [|done].
        injection Hrun as _ <-. cbn. by rewrite Hdoc.
    + injection Hrun as _ <-. by subst.
  - unfold pendingInOrder in *.
    unfold Update, bind in Hrun.
    pose proof (prepareUpdate_inv msgAndArgs d) as Hinv.
    destruct (prepareUpdate msgAndArgs d) as [[[ctx cr] cp] d1|?|?|?]; try done.
    + destruct (updater ctx cr cp) as [[[ctx' cr'] cp'] [err|]]; [done|].
      cbn in Hrun. destruct (Context_HasChange ctx'); [|done].
      by destruct (Change_Execute _ _ _) as [[r p] [err|]].
    + injection Hrun as _ <-. destruct Hinv as (-> & _). done.
  - unfold Update, bind in Hrun.
    pose proof (prepareUpdate_inv msgAndArgs d) as Hinv.
    destruct (prepareUpdate msgAndArgs d) as [[[ctx cr] cp] d1|?|?|?]; try done.
    destruct (updater ctx cr cp) as [[[ctx' cr'] cp'] [err|]]; [done|].
    cbn in Hrun. destruct (Context_HasChange ctx'); [|done].
    by destruct (Change_Execute _ _ _) as [[r p] [err|]].
Qed.

(** X21. [ApplyChangePack] keeps that order whichever way it ends: with
    nil, with an error, in a panic of the garbage collection, or waiting
    in a send. *)
Theorem ApplyChangePack_keeps_pending_order (pack : Pack) (d : Document) :
  pendingInOrder d = true ->
  pendingInOrder (final (ApplyChangePack pack d)) = true.
Proof.
  intros Hord. unfold ApplyChangePack, bind.
  pose proof (applyRemoteChanges_frame pack d) as Hfr. cbn in Hfr.
  destruct (applyRemoteChanges pack d) as [[] d1|e d1|e d1|d1]; cbn in Hfr |- *;
    destruct Hfr as (_ & _ & Hcs & Hl);
    try (unfold pendingInOrder in *; by rewrite Hcs, Hl).
  assert (Hord1 : pendingInOrder d1 = true)
    by (unfold pendingInOrder in *; by rewrite Hcs, Hl).
  clear Hord Hcs Hl.
  unfold afterRemoteChanges, bind, modify.
  match goal with
  | |- context [GarbageCollect ?t ?x] =>
      pose proof (GarbageCollect_frame t x) as Hgc;
      assert (Hx : pendingInOrder x = true)
        by (unfold pendingInOrder in *; cbn; by apply removeApplied_ascending);
      destruct (GarbageCollect t x) as [n d2|e d2|e d2|d2]; try done
  end.
  - destruct Hgc as (_ & _ & _ & _ & Hid & Hl & _).
    destruct (pack_IsRemoved pack); cbn; unfold pendingInOrder in *; cbn;
      by rewrite Hid, Hl.
  - destruct Hgc as (_ & _ & _ & _ & Hid & Hl & _). cbn.
    unfold pendingInOrder in *. by rewrite Hid, Hl.
Qed.

End OrderMore.

Section OrderRuns.

Import Flat Scenario Cases.

Lemma record_keeps_id (op : operation) (ctx : Context) (cr : Root) (cp : PresenceMap) :
  ctx_id (record op ctx cr cp).1.1.1 = ctx_id ctx.
Proof. unfold record. by destruct (execute op cr) as [cr' [err|]]. Qed.

Lemma Update_keeps_pending_order_witness :
  pendingInOrder afterInsert = true
  /\ pendingInOrder
       (final (Update (record (Set_ "b" (Counter 2) 2)) [] afterInsert)) = true
  /\ map Change_ClientSeq
       (localChanges
          (doc (final (Update (record (Set_ "b" (Counter 2) 2)) [] afterInsert))))
     = [1; 2].
Proof.
  assert (Hord : pendingInOrder afterInsert = true) by (vm_compute; reflexivity).
  split; [exact Hord|]. split; [|vm_compute; reflexivity].
  apply (Update_keeps_pending_order (record (Set_ "b" (Counter 2) 2)) []
           afterInsert Hord).
  - assert (ChangeID.clientSeq (changeID (doc afterInsert)) = 1) as ->
      by (vm_compute; reflexivity).
    lia.
  - apply record_keeps_id.
Defined.

Lemma ApplyChangePack_keeps_pending_order_witness :
  pendingInOrder threePending = true
  /\ pendingInOrder (final (ApplyChangePack twoPresences threePending)) = true.
Proof.
  assert (Hord : pendingInOrder threePending = true) by (vm_compute; reflexivity).
  split; [exact Hord|].
  exact (ApplyChangePack_keeps_pending_order twoPresences threePending Hord).
Defined.

End OrderRuns.
